(** * Yag auction client (src/app.js): a shallow embedding and its properties

    The browser client is modelled as a state machine.  The module-level
    variables of app.js form the state; every callback the page can run
    (a submit click, a contract event, a timer tick, ...) is a function on
    that state.  Calls on the contract and calls of [showStatus] are
    recorded, in order, in a log, so that "no chain write was made" is a
    statement about the log.

    Left out: styling and the wiring of DOM elements, the rewriting of
    status texts in [showStatus], [fetchDataBatch] (never called),
    [handleChainChange] (reloads the page) and the Escape key handler. *)

From Stdlib Require Import ZArith List Bool String Lia Arith.
Import ListNotations.
Open Scope Z_scope.

(** ** JavaScript text *)

Module Js.

(** A JS string is a sequence of UTF-16 code units; [.length] counts them. *)
Definition jsstring := list N.

Definition lit (s : string) : jsstring :=
  map (fun b => N.of_nat (Byte.to_nat b)) (list_byte_of_string s).

Definition length (s : jsstring) : Z := Z.of_nat (List.length s).

(** WhiteSpace and LineTerminator code units, the ones [trim] strips. *)
Definition isWhiteSpace (c : N) : bool :=
  ((9 <=? c) && (c <=? 13) || (c =? 32) || (c =? 160) || (c =? 5760)
   || (8192 <=? c) && (c <=? 8202) || (c =? 8232) || (c =? 8233)
   || (c =? 8239) || (c =? 8287) || (c =? 12288) || (c =? 65279))%N.

Fixpoint trimStart (s : jsstring) : jsstring :=
  match s with
  | c :: s' => if isWhiteSpace c then trimStart s' else s
  | [] => []
  end.

Definition trimEnd (s : jsstring) : jsstring := rev (trimStart (rev s)).

Definition trim (s : jsstring) : jsstring := trimEnd (trimStart s).

Fixpoint eqb (s t : jsstring) : bool :=
  match s, t with
  | [], [] => true
  | c :: s', d :: t' => (c =? d)%N && eqb s' t'
  | _, _ => false
  end.

End Js.

Definition jsstring : Type := Js.jsstring.

(** ** The contract, seen from the client *)

Definition Address := jsstring.

(** One entry of [bidHistory]. *)
Record Bid := mkBid { sender : Address; amount : Z; content : jsstring }.

(** What a write call can do: the promise of the call rejects (the wallet
    or the library refuses, the user cancels), or a transaction is handed
    back whose [wait()] resolves ([None]) or rejects with a message. *)
Inductive TxOutcome :=
| TxRejected (message : jsstring)
| TxSent (waitError : option jsstring).

(** The answers of the chain.  A read answers [None] when the call throws.
    ethers BigNumbers are unbounded integers; [sub] may go negative.
    [bidHistory] answers at finitely many indices: a read at or past the
    end of the list throws, and so does a read of an entry that is [None]
    (a failed call). *)
Record Chain := mkChain {
  ch_endTime : option Z;
  ch_bidHistory : list (option Bid);
  ch_addressToName : Address -> option jsstring;
  ch_fullBids : Address -> option Z;
  ch_register : jsstring -> TxOutcome;
  ch_contribute : jsstring -> Z -> TxOutcome;
  ch_readError : jsstring          (* [error.message] of a read that throws *)
}.

(** What the wallet answers in [checkAndSwitchNetwork]: the chain is the
    configured one; or it is another and the switch is asked for, which
    succeeds or fails (adding the network included); or the request of
    the chain id fails. *)
Inductive NetworkReply :=
| OnNetwork
| SwitchAsked (failure : option jsstring)
| ChainIdFailed (message : jsstring).

(** What the wallet answers to [eth_requestAccounts], and then to the
    network check. *)
Inductive WalletReply :=
| NoWallet
| RequestFailed (message : jsstring)
| Accounts (account : Address) (network : NetworkReply).

(** The fields of [CONFIG] that app.js reads; the object itself is
    defined outside app.js and is a parameter here. *)
Record Config := mkConfig {
  NETWORK_NAME : jsstring;
  BATCH_SIZE : nat;
  CACHE_DURATION : Z;
  UPDATE_INTERVAL : Z
}.

(** ** Observable actions *)

Inductive Call :=
| CallEndTime
| CallBidHistory (index : nat)
| CallAddressToName (a : Address)
| CallFullBids (a : Address)
| CallRegister (name : jsstring)
| CallContribute (message : jsstring) (value : Z).

Definition isWrite (c : Call) : bool :=
  match c with
  | CallRegister _ | CallContribute _ _ => true
  | _ => false
  end.

Inductive StatusType := success | warning | error | info.

(** Contract objects are told apart by a number: [new ethers.Contract]
    makes a fresh one. *)
Definition ContractId := nat.

Inductive Action :=
| ChainCall (on : ContractId) (c : Call)
| ShowStatus (message : jsstring) (type : StatusType)
| TxWait
| FetchBatch (ids : list Z)
| Delay (ms : Z).

Definition isChainWrite (a : Action) : bool :=
  match a with
  | ChainCall _ c => isWrite c
  | _ => false
  end.

(** The chain writes of a log. *)
Definition chainWrites (l : list Action) : list Action := filter isChainWrite l.

(** ** State *)

Inductive EventName := NewBid | DataUpdated.

Definition EventName_eqb (a b : EventName) : bool :=
  match a, b with
  | NewBid, NewBid | DataUpdated, DataUpdated => true
  | _, _ => false
  end.

(** The two handler closures the client registers. *)
Inductive Handler := onNewBid | onDataUpdated.

(** [let dataCache = {...}]; [isProcessing] is absent (falsy) until the
    first drain sets it.  [pendingUpdates] is a Set: insertion order, no
    duplicates.  The [data] field is never read or written and is left out. *)
Record DataCache := mkCache {
  lastUpdate : Z;
  version : Z;
  pendingUpdates : list Z;
  processedTransactions : list jsstring;
  isProcessing : bool
}.

(** The block "State variables" of app.js; [None] is [undefined]. *)
Record Auction := mkAuction {
  endTimeValue : option Z;
  currentBid : option Z;
  lastBidder : option Address;
  lastBidderName : option jsstring;
  lastMessage : option jsstring
}.

(** [contract], [userAddress], and the listeners held by every contract
    object made so far. *)
Record Session := mkSession {
  contract : ContractId;
  freshId : ContractId;
  listeners : ContractId -> EventName -> list Handler;
  userAddress : option Address
}.

(** What the page shows, as far as the functions below write it.  The
    status banner and the wallet panel are no fields of [Page]: what
    [showStatus] writes is the [ShowStatus] entries of the log, and the
    panel is drawn by [drawWalletPanel] further down. *)
Inductive Winner :=
| NoBidsYet
| WinnerAddress (a : Address)
| WinnerNamed (name : jsstring) (a : Address).

Inductive TimerText :=
| AuctionEnded
| Clock (hours minutes seconds : Z).

Record Page := mkPage {
  currentWinner : option Winner;
  minNextBid : option Z;           (* the amount shown in #min-next-bid *)
  winnerMessage : option jsstring;
  auctionTimer : option TimerText;
  contributeDisabled : bool;
  bidInput : option Z;             (* the amount preset in #bid-amount *)
  bidModalOpen : bool;
  registerModalOpen : bool
}.

(** A run of [processDataQueue] that is suspended at an [await]: the part
    of the snapshot [updates] after the batch in flight, and whether it
    waits for the batch or for the 100 ms pause. *)
Inductive DrainWait := AwaitBatch | AwaitPause.
Record Drain := mkDrain { rest : list Z; waiting : DrainWait }.

Record App := mkApp {
  session : Session;
  cache : DataCache;
  auction : Auction;
  page : Page;
  submitBid : option Z;      (* onclick of #submit-bid: the captured userFullBid *)
  submitName : bool;         (* onclick of #submit-name is installed *)
  countdowns : nat;          (* setInterval(updateTimer, 1000) timers running *)
  drains : list Drain;       (* suspended runs of processDataQueue *)
  log : list Action
}.

Definition initialCache : DataCache :=
  {| lastUpdate := 0; version := 0; pendingUpdates := [];
     processedTransactions := []; isProcessing := false |}.

Definition initialAuction : Auction :=
  {| endTimeValue := None; currentBid := None; lastBidder := None;
     lastBidderName := None; lastMessage := None |}.

Definition initialPage : Page :=
  {| currentWinner := None; minNextBid := None; winnerMessage := None;
     auctionTimer := None; contributeDisabled := false; bidInput := None;
     bidModalOpen := false; registerModalOpen := false |}.

(** After the first two lines of [initializeApp]: one read-only contract. *)
Definition initialApp : App :=
  {| session := {| contract := 0%nat; freshId := 1%nat;
                   listeners := fun _ _ => []; userAddress := None |};
     cache := initialCache; auction := initialAuction; page := initialPage;
     submitBid := None; submitName := false; countdowns := 0%nat;
     drains := []; log := [] |}.

(** Field updates. *)
Definition withSession (f : Session -> Session) (s : App) : App :=
  mkApp (f (session s)) (cache s) (auction s) (page s) (submitBid s)
        (submitName s) (countdowns s) (drains s) (log s).
Definition withCache (f : DataCache -> DataCache) (s : App) : App :=
  mkApp (session s) (f (cache s)) (auction s) (page s) (submitBid s)
        (submitName s) (countdowns s) (drains s) (log s).
Definition withAuction (f : Auction -> Auction) (s : App) : App :=
  mkApp (session s) (cache s) (f (auction s)) (page s) (submitBid s)
        (submitName s) (countdowns s) (drains s) (log s).
Definition withPage (f : Page -> Page) (s : App) : App :=
  mkApp (session s) (cache s) (auction s) (f (page s)) (submitBid s)
        (submitName s) (countdowns s) (drains s) (log s).
Definition withSubmitBid (v : option Z) (s : App) : App :=
  mkApp (session s) (cache s) (auction s) (page s) v
        (submitName s) (countdowns s) (drains s) (log s).
Definition withSubmitName (v : bool) (s : App) : App :=
  mkApp (session s) (cache s) (auction s) (page s) (submitBid s)
        v (countdowns s) (drains s) (log s).
Definition withCountdowns (f : nat -> nat) (s : App) : App :=
  mkApp (session s) (cache s) (auction s) (page s) (submitBid s)
        (submitName s) (f (countdowns s)) (drains s) (log s).
Definition withDrains (f : list Drain -> list Drain) (s : App) : App :=
  mkApp (session s) (cache s) (auction s) (page s) (submitBid s)
        (submitName s) (countdowns s) (f (drains s)) (log s).

(** Append an action to the log. *)
Definition emit (a : Action) (s : App) : App :=
  mkApp (session s) (cache s) (auction s) (page s) (submitBid s)
        (submitName s) (countdowns s) (drains s) (log s ++ [a]).

(** [contract.f(...)]: the call goes to whichever object [contract] names now. *)
Definition call (c : Call) (s : App) : App :=
  emit (ChainCall (contract (session s)) c) s.

(** [showStatus(message, type)]; the rewriting of the text for display is
    presentation and is not modelled. *)
Definition showStatus (message : string) (type : StatusType) (s : App) : App :=
  emit (ShowStatus (Js.lit message) type) s.

Definition showStatusText (message : jsstring) (type : StatusType) (s : App) : App :=
  emit (ShowStatus message type) s.

(** ** Presentation of the auction state *)

(** [ethers.utils.parseEther("0.0004")], in wei. *)
Definition minIncrement : Z := 400000000000000.

(** [currentBid ? currentBid.add(minIncrement) : minIncrement], as written
    in [updateDisplay] and in [contribute].  A BigNumber object is truthy
    whatever its value; only [undefined] takes the second branch. *)
Definition nextMinBid (currentBid : option Z) : Z :=
  match currentBid with
  | Some b => b + minIncrement
  | None => minIncrement
  end.

Definition orText (o : option jsstring) (default : string) : jsstring :=
  match o with
  | Some (c :: t) => c :: t
  | _ => Js.lit default
  end.

(** [updateDisplay()].  The address is shown abbreviated and the price per
    YAP is a floating-point figure; neither is modelled. *)
Definition updateDisplay (s : App) : App :=
  let a := auction s in
  let winner :=
    match lastBidder a with
    | Some (c :: t) =>
        match lastBidderName a with
        | Some (d :: n) => WinnerNamed (d :: n) (c :: t)
        | _ => WinnerAddress (c :: t)
        end
    | _ => NoBidsYet
    end in
  withPage (fun p =>
    {| currentWinner := Some winner;
       minNextBid := Some (nextMinBid (currentBid a));
       winnerMessage := Some (orText (lastMessage a) "No message yet");
       auctionTimer := auctionTimer p;
       contributeDisabled := contributeDisabled p;
       bidInput := bidInput p;
       bidModalOpen := bidModalOpen p;
       registerModalOpen := registerModalOpen p |}) s.

(** ** Wallet *)

Definition setUserAddress (u : option Address) (x : Session) : Session :=
  {| contract := contract x; freshId := freshId x;
     listeners := listeners x; userAddress := u |}.

(** [contract = new ethers.Contract(...)]: a new object, without listeners;
    the objects made before keep theirs. *)
Definition newContract (x : Session) : Session :=
  {| contract := freshId x; freshId := S (freshId x);
     listeners := listeners x; userAddress := userAddress x |}.

(** [updateWalletDisplay()]: with an address set it reads the registered
    name; [false] when that read throws.  What it writes to the wallet
    panel is kept out of the state: [drawWalletPanel] further down gives
    it, and no statement about [page] speaks of the panel. *)
Definition updateWalletDisplay (ch : Chain) (s : App) : bool * App :=
  match userAddress (session s) with
  | Some (c :: t) =>
      (match ch_addressToName ch (c :: t) with Some _ => true | None => false end,
       call (CallAddressToName (c :: t)) s)
  | _ => (true, s)
  end.

(** [checkAndSwitchNetwork()], with its result. *)
Definition checkAndSwitchNetwork (CONFIG : Config) (n : NetworkReply) (s : App)
    : bool * App :=
  match n with
  | OnNetwork => (true, s)
  | SwitchAsked failure =>
      let s := showStatusText (Js.lit "Please switch to " ++ NETWORK_NAME CONFIG)
                              warning s in
      match failure with
      | None => (true, s)
      | Some m =>
          (false, showStatusText (Js.lit "Network switch failed: " ++ m) error s)
      end
  | ChainIdFailed m =>
      (false, showStatusText (Js.lit "Network switch failed: " ++ m) error s)
  end.

(** [connectWallet()], with its result.  [userAddress] is assigned before
    the network check, and stays assigned when the check fails.  The
    wallet display is updated without being awaited. *)
Definition connectWallet (CONFIG : Config) (ch : Chain) (w : WalletReply)
    (s : App) : bool * App :=
  match w with
  | NoWallet =>
      (false, showStatus "No Web3 wallet detected. Please install MetaMask or similar." error s)
  | RequestFailed m =>
      (false, showStatusText (Js.lit "Failed to connect wallet: " ++ m) error s)
  | Accounts a n =>
      let s := withSession (setUserAddress (Some a)) s in
      let (ok, s) := checkAndSwitchNetwork CONFIG n s in
      if ok then
        let s := withSession newContract s in
        let s := showStatus "Wallet connected successfully" success s in
        (true, snd (updateWalletDisplay ch s))
      else (false, s)
  end.

(** [disconnectWallet()]. *)
Definition disconnectWallet (ch : Chain) (s : App) : App :=
  let s := withSession (setUserAddress None) s in
  let s := withSession newContract s in
  let s := snd (updateWalletDisplay ch s) in
  showStatus "Wallet disconnected" success s.

(** [handleAccountsChanged(accounts)]. *)
Definition handleAccountsChanged (CONFIG : Config) (ch : Chain)
    (accounts : list Address) (w : WalletReply) (s : App) : App :=
  match accounts with
  | [] => disconnectWallet ch s
  | a :: _ =>
      match userAddress (session s) with
      | Some u =>
          if Js.eqb a u then s
          else snd (connectWallet CONFIG ch w
                      (withSession (setUserAddress (Some a)) s))
      | None => snd (connectWallet CONFIG ch w
                       (withSession (setUserAddress (Some a)) s))
      end
  end.

(** ** Bid submission *)

Definition setBidModal (input : option Z) (open : bool) (p : Page) : Page :=
  {| currentWinner := currentWinner p; minNextBid := minNextBid p;
     winnerMessage := winnerMessage p; auctionTimer := auctionTimer p;
     contributeDisabled := contributeDisabled p;
     bidInput := input; bidModalOpen := open;
     registerModalOpen := registerModalOpen p |}.

Definition setRegisterModal (open : bool) (p : Page) : Page :=
  {| currentWinner := currentWinner p; minNextBid := minNextBid p;
     winnerMessage := winnerMessage p; auctionTimer := auctionTimer p;
     contributeDisabled := contributeDisabled p;
     bidInput := bidInput p; bidModalOpen := bidModalOpen p;
     registerModalOpen := open |}.

(** The part of [contribute()] after the wallet is known: read the
    caller's [fullBids], preset the input to [nextMinBid], install the
    submit handler with [userFullBid] captured, show the modal.  When the
    read throws nothing after it runs. *)
Definition openBidModal (ch : Chain) (u : Address) (s : App) : App :=
  let s := call (CallFullBids u) s in
  match ch_fullBids ch u with
  | None => s
  | Some userFullBid =>
      let preset := nextMinBid (currentBid (auction s)) in
      let s := withSubmitBid (Some userFullBid) s in
      withPage (setBidModal (Some preset) true) s
  end.

(** [contribute()], the click on #contribute-button. *)
Definition contribute (CONFIG : Config) (w : WalletReply) (ch : Chain)
    (s : App) : App :=
  match userAddress (session s) with
  | Some (c :: t) => openBidModal ch (c :: t) s
  | _ =>
      let (connected, s) := connectWallet CONFIG ch w s in
      if connected then
        match userAddress (session s) with
        | Some u => openBidModal ch u s
        | None => s
        end
      else showStatus "Could not connect wallet" error s
  end.

(** After a write call: the rejection is shown, or the modal is closed,
    the transaction awaited and the outcome shown. *)
Definition afterWrite (closeModal : Page -> Page) (done : string)
    (o : TxOutcome) (s : App) : App :=
  match o with
  | TxRejected m => showStatusText m error s
  | TxSent w =>
      let s := withPage closeModal s in
      let s := showStatus "Transaction submitted..." warning s in
      let s := emit TxWait s in
      match w with
      | None => showStatus done success s
      | Some m => showStatusText m error s
      end
  end.

(** The onclick of #submit-bid.  [bidAmount] is
    [parseEther(bidInput.value)], [None] when it throws (the call stands
    before the [try], so nothing else runs then); [message] is
    [messageInput.value]. *)
Definition onSubmitBid (ch : Chain) (bidAmount : option Z) (message : jsstring)
    (s : App) : App :=
  match submitBid s, bidAmount with
  | Some userFullBid, Some bidAmount =>
      if Js.length message >? 256 then
        showStatus "Message too long (max 256 characters)" error s
      else
        let amountToSend := bidAmount - userFullBid in
        let s := call (CallContribute message amountToSend) s in
        afterWrite (fun p => setBidModal (bidInput p) false p)
                   "Bid placed successfully!"
                   (ch_contribute ch message amountToSend) s
  | _, _ => s
  end.

(** ** Registration *)

(** [handleRegister()], the click on #register-button. *)
Definition handleRegister (s : App) : App :=
  match userAddress (session s) with
  | Some (_ :: _) =>
      withPage (setRegisterModal true) (withSubmitName true s)
  | _ => showStatus "Please connect your wallet first" warning s
  end.

(** The onclick of #submit-name; [value] is [nameInput.value]. *)
Definition onSubmitName (ch : Chain) (value : jsstring) (s : App) : App :=
  if submitName s then
    let name := Js.trim value in
    match name with
    | [] => showStatus "Please enter a name" error s
    | _ :: _ =>
        if Js.length name >? 32 then
          showStatus "Name too long (max 32 characters)" error s
        else
          let s := call (CallRegister name) s in
          match ch_register ch name with
          | TxRejected m => showStatusText m error s
          | TxSent w =>
              let s := withPage (setRegisterModal false) s in
              let s := showStatus "Transaction submitted..." warning s in
              let s := emit TxWait s in
              match w with
              | None =>
                  let s := showStatus "Name registered successfully!" success s in
                  let (ok, s) := updateWalletDisplay ch s in
                  if ok then s else showStatusText (ch_readError ch) error s
              | Some m => showStatusText m error s
              end
          end
    end
  else s.

(** ** Countdown *)

(** [BigNumber.toNumber()]: throws beyond 53 bits. *)
Definition toNumber (b : Z) : option Z :=
  if Z.abs b <? 2 ^ 53 then Some b else None.

Definition setTimer (t : TimerText) (disabled : bool) (p : Page) : Page :=
  {| currentWinner := currentWinner p; minNextBid := minNextBid p;
     winnerMessage := winnerMessage p; auctionTimer := Some t;
     contributeDisabled := disabled;
     bidInput := bidInput p; bidModalOpen := bidModalOpen p;
     registerModalOpen := registerModalOpen p |}.

(** [remaining] as [updateTimer] computes it from [Date.now()] (in ms).
    The source computes in doubles, which are these exact integers while
    [0 <= now < 2 ^ 53] and the difference stays below 2^53; the sign of
    the result is the same in any case. *)
Definition remainingAt (e now : Z) : Z := e - now / 1000.

(** [updateTimer()], one tick; [None] when it throws ([endTimeValue]
    undefined or too large for [toNumber]).  The text of a running clock
    is hh:mm:ss of the three numbers. *)
Definition updateTimer (now : Z) (s : App) : option App :=
  match endTimeValue (auction s) with
  | None => None
  | Some e =>
      match toNumber e with
      | None => None
      | Some e =>
          let remaining := remainingAt e now in
          if remaining <=? 0 then
            Some (withPage (setTimer AuctionEnded true) s)
          else
            let hours := remaining / 3600 in
            let minutes := (remaining mod 3600) / 60 in
            let seconds := remaining mod 60 in
            Some (withPage (fun p => setTimer (Clock hours minutes seconds)
                                              (contributeDisabled p) p) s)
      end
  end.

(** A tick fired by [setInterval]: an exception in the callback is lost. *)
Definition countdownTick (now : Z) (s : App) : App :=
  match countdowns s with
  | O => s
  | S _ => match updateTimer now s with Some s' => s' | None => s end
  end.

(** [startTimer()]: one tick at once, then a new interval timer; the
    timers started before keep running.  [None] when the first tick throws. *)
Definition startTimer (now : Z) (s : App) : option App :=
  match updateTimer now s with
  | Some s => Some (withCountdowns S s)
  | None => None
  end.

(** ** Listeners *)

(** [contract.removeAllListeners(e)], on the object [contract] names now. *)
Definition removeAllListeners (e : EventName) (x : Session) : Session :=
  {| contract := contract x; freshId := freshId x;
     listeners := fun c e' =>
       if Nat.eqb c (contract x) && EventName_eqb e' e then []
       else listeners x c e';
     userAddress := userAddress x |}.

(** [contract.on(e, h)]. *)
Definition on (e : EventName) (h : Handler) (x : Session) : Session :=
  {| contract := contract x; freshId := freshId x;
     listeners := fun c e' =>
       if Nat.eqb c (contract x) && EventName_eqb e' e
       then listeners x c e' ++ [h]
       else listeners x c e';
     userAddress := userAddress x |}.

(** ** Auction data *)

Definition readBid (ch : Chain) (i : nat) : option Bid :=
  match nth_error (ch_bidHistory ch) i with
  | Some o => o
  | None => None
  end.

Definition setEndTime (e : Z) (a : Auction) : Auction :=
  {| endTimeValue := Some e; currentBid := currentBid a;
     lastBidder := lastBidder a; lastBidderName := lastBidderName a;
     lastMessage := lastMessage a |}.

(** The three assignments [lastBidder = ...; currentBid = ...;
    lastMessage = ...] made from a bid. *)
Definition setBid (bidder : Address) (amount : Z) (content : jsstring)
    (a : Auction) : Auction :=
  {| endTimeValue := endTimeValue a; currentBid := Some amount;
     lastBidder := Some bidder; lastBidderName := lastBidderName a;
     lastMessage := Some content |}.

Definition setBidderName (name : jsstring) (a : Auction) : Auction :=
  {| endTimeValue := endTimeValue a; currentBid := currentBid a;
     lastBidder := lastBidder a; lastBidderName := Some name;
     lastMessage := lastMessage a |}.

(** The loop [while (true) { try { await contract.bidHistory(latestIndex + 1);
    latestIndex++ } catch { break } }].  Each round is one read; [fuel]
    bounds the rounds. *)
Fixpoint probe (fuel : nat) (ch : Chain) (latestIndex : nat) (s : App)
    : nat * App :=
  match fuel with
  | O => (latestIndex, s)
  | S fuel =>
      let s := call (CallBidHistory (latestIndex + 1)) s in
      match readBid ch (latestIndex + 1) with
      | Some _ => probe fuel ch (latestIndex + 1) s
      | None => (latestIndex, s)
      end
  end.

(** The loop started at [latestIndex = 0].  Every successful read is at
    an index inside the history, so one round more than its length is
    enough for the loop to reach its [break] ([probe_breaks] below). *)
Definition scan (ch : Chain) (s : App) : nat * App :=
  probe (S (List.length (ch_bidHistory ch))) ch 0%nat s.

(** The handler of [NewBid]: [(bidder, amount, content, bidIndex) => ...].
    [bidIndex] is not used.  The name arrives in a [then]; when that read
    fails neither the name nor the display is updated.  The callback is
    run here in the step of the listener, which is the case where nothing
    else runs before the name arrives; [newBidArrives] and [nameArrives]
    further down are the two parts on their own. *)
Definition handleNewBid (ch : Chain) (bidder : Address) (amount : Z)
    (content : jsstring) (bidIndex : nat) (s : App) : App :=
  let s := withAuction (setBid bidder amount content) s in
  let s := call (CallAddressToName bidder) s in
  match ch_addressToName ch bidder with
  | Some name => updateDisplay (withAuction (setBidderName name) s)
  | None => s
  end.

(** The inner [try] of [initializeAuctionData] after the loop: fetch the
    bid at [latestIndex] and show it ([latestIndex >= 0] always holds).
    An exception leaves what was assigned before it. *)
Definition fetchLatest (ch : Chain) (latestIndex : nat) (s : App) : App :=
  let s := call (CallBidHistory latestIndex) s in
  match readBid ch latestIndex with
  | None => s
  | Some latestBid =>
      let s := withAuction (setBid (sender latestBid) (amount latestBid)
                                   (content latestBid)) s in
      let s := call (CallAddressToName (sender latestBid)) s in
      match ch_addressToName ch (sender latestBid) with
      | None => s
      | Some name => updateDisplay (withAuction (setBidderName name) s)
      end
  end.

(** [removeAllListeners("NewBid"); on("NewBid", ...)]. *)
Definition listenNewBid (s : App) : App :=
  withSession (on NewBid onNewBid) (withSession (removeAllListeners NewBid) s).

(** [initializeAuctionData()], run to its end against one state of the
    chain.  A failed [endTime] read or a throwing first tick ends it in
    the outer [catch]. *)
Definition initializeAuctionData (ch : Chain) (now : Z) (s : App) : App :=
  let s := call CallEndTime s in
  match ch_endTime ch with
  | None => s
  | Some e =>
      let s := withAuction (setEndTime e) s in
      match startTimer now s with
      | None => s
      | Some s =>
          let (latestIndex, s) := scan ch s in
          let s := fetchLatest ch latestIndex s in
          listenNewBid s
      end
  end.

(** ** The queue of pending updates *)

Definition setPending (l : list Z) (c : DataCache) : DataCache :=
  {| lastUpdate := lastUpdate c; version := version c; pendingUpdates := l;
     processedTransactions := processedTransactions c;
     isProcessing := isProcessing c |}.

Definition setProcessed (l : list jsstring) (c : DataCache) : DataCache :=
  {| lastUpdate := lastUpdate c; version := version c;
     pendingUpdates := pendingUpdates c; processedTransactions := l;
     isProcessing := isProcessing c |}.

Definition setProcessing (b : bool) (c : DataCache) : DataCache :=
  {| lastUpdate := lastUpdate c; version := version c;
     pendingUpdates := pendingUpdates c;
     processedTransactions := processedTransactions c; isProcessing := b |}.

(** [Set.prototype.add] on a Set kept in insertion order. *)
Definition setAdd (x : Z) (l : list Z) : list Z :=
  if existsb (Z.eqb x) l then l else l ++ [x].

Definition hasTransaction (h : jsstring) (l : list jsstring) : bool :=
  existsb (Js.eqb h) l.

Fixpoint replaceAt {A} (k : nat) (x : A) (l : list A) : list A :=
  match l, k with
  | [], _ => []
  | _ :: t, O => x :: t
  | y :: t, S k => y :: replaceAt k x t
  end.

Fixpoint removeAt {A} (k : nat) (l : list A) : list A :=
  match l, k with
  | [], _ => []
  | _ :: t, O => t
  | y :: t, S k => y :: removeAt k t
  end.

(** One round of the [for] loop up to its [await]: the batch
    [updates.slice(i, i + BATCH_SIZE)] is handed to [updateSingleItem]
    (which app.js does not define), and the run is suspended with the
    part of [updates] after the batch. *)
Definition fetchBatch (CONFIG : Config) (remaining : list Z) (s : App)
    : Drain * App :=
  ({| rest := skipn (BATCH_SIZE CONFIG) remaining; waiting := AwaitBatch |},
   emit (FetchBatch (firstn (BATCH_SIZE CONFIG) remaining)) s).

(** [processDataQueue()] up to its first [await].  With nothing pending
    the loop is not entered and [finally] clears the flag; its test of
    [pendingUpdates.size] fails there, since nothing ran in between. *)
Definition processDataQueue (CONFIG : Config) (s : App) : App :=
  if isProcessing (cache s) then s
  else
    let s := withCache (setProcessing true) s in
    match pendingUpdates (cache s) with
    | [] => withCache (setProcessing false) s
    | u :: us =>
        let s := withCache (setPending []) s in
        let (d, s) := fetchBatch CONFIG (u :: us) s in
        withDrains (fun l => l ++ [d]) s
    end.

(** The run suspended at position [k] goes on after its batch resolved:
    a pause when [i + BATCH_SIZE < updates.length], else the [while] test
    again, with a new snapshot or the end of the run. *)
Definition batchResolved (CONFIG : Config) (k : nat) (s : App) : App :=
  match nth_error (drains s) k with
  | Some {| rest := r; waiting := AwaitBatch |} =>
      match r with
      | _ :: _ =>
          let s := emit (Delay 100) s in
          withDrains (replaceAt k {| rest := r; waiting := AwaitPause |}) s
      | [] =>
          match pendingUpdates (cache s) with
          | [] => withCache (setProcessing false) (withDrains (removeAt k) s)
          | u :: us =>
              let s := withCache (setPending []) s in
              let (d, s) := fetchBatch CONFIG (u :: us) s in
              withDrains (replaceAt k d) s
          end
      end
  | _ => s
  end.

(** ... after the pause: the next batch. *)
Definition pauseElapsed (CONFIG : Config) (k : nat) (s : App) : App :=
  match nth_error (drains s) k with
  | Some {| rest := r; waiting := AwaitPause |} =>
      let (d, s) := fetchBatch CONFIG r s in
      withDrains (replaceAt k d) s
  | _ => s
  end.

(** ... after its batch rejected: the exception leaves the loops,
    [finally] clears the flag and calls [processDataQueue()] again when
    something is pending. *)
Definition batchRejected (CONFIG : Config) (k : nat) (s : App) : App :=
  match nth_error (drains s) k with
  | Some {| rest := _; waiting := AwaitBatch |} =>
      let s := withCache (setProcessing false) (withDrains (removeAt k) s) in
      match pendingUpdates (cache s) with
      | [] => s
      | _ :: _ => processDataQueue CONFIG s
      end
  | _ => s
  end.

(** The handler of [DataUpdated]: [(id, event) => ...].  [id.toNumber()]
    may throw, after the transaction was marked. *)
Definition handleDataUpdated (CONFIG : Config) (id : Z)
    (transactionHash : jsstring) (s : App) : App :=
  if hasTransaction transactionHash (processedTransactions (cache s)) then s
  else
    let s := withCache (fun c =>
               setProcessed (processedTransactions c ++ [transactionHash]) c) s in
    match toNumber id with
    | None => s
    | Some n =>
        let s := withCache (fun c => setPending (setAdd n (pendingUpdates c)) c) s in
        processDataQueue CONFIG s
    end.

(** [setupEventListener()]. *)
Definition setupEventListener (s : App) : App :=
  withSession (on DataUpdated onDataUpdated)
              (withSession (removeAllListeners DataUpdated) s).

(** ** Events of the contract *)

(** An event as the contract object hands it to a listener: the
    arguments of the event, then the event object, of which only
    [transactionHash] is of interest.  The listener of [NewBid] declares
    four parameters and so does not see the event object. *)

Inductive ContractEvent :=
| EvNewBid (bidder : Address) (amount : Z) (content : jsstring) (bidIndex : nat)
    (transactionHash : jsstring)
| EvDataUpdated (id : Z) (transactionHash : jsstring).

Definition eventName (ev : ContractEvent) : EventName :=
  match ev with
  | EvNewBid _ _ _ _ _ => NewBid
  | EvDataUpdated _ _ => DataUpdated
  end.

Definition invoke (CONFIG : Config) (ch : Chain) (h : Handler)
    (ev : ContractEvent) (s : App) : App :=
  match h, ev with
  | onNewBid, EvNewBid bidder amount content bidIndex _ =>
      handleNewBid ch bidder amount content bidIndex s
  | onDataUpdated, EvDataUpdated id transactionHash =>
      handleDataUpdated CONFIG id transactionHash s
  | _, _ => s
  end.

(** The contract object [c] emits [ev]: every listener it holds for the
    event's name is called, in the order of registration. *)
Definition deliver (CONFIG : Config) (ch : Chain) (c : ContractId)
    (ev : ContractEvent) (s : App) : App :=
  fold_left (fun s h => invoke CONFIG ch h ev s)
            (listeners (session s) c (eventName ev)) s.

(** ** Periodic updates and start-up *)

(** The callback of [setInterval(..., CONFIG.UPDATE_INTERVAL)]. *)
Definition periodicTick (CONFIG : Config) (ch : Chain) (now : Z) (s : App) : App :=
  if now - lastUpdate (cache s) >? CACHE_DURATION CONFIG
  then initializeAuctionData ch now s
  else s.

(** [startPeriodicUpdates()]: the initial fetch; the interval it sets up
    fires [periodicTick]. *)
Definition startPeriodicUpdates (ch : Chain) (now : Z) (s : App) : App :=
  initializeAuctionData ch now s.

(** [initializeApp()] after the contract is made. *)
Definition initializeApp (ch : Chain) (now : Z) (s : App) : App :=
  initializeAuctionData ch now (startPeriodicUpdates ch now s).

(** The [load] listener: [await initializeApp(); await initializeAuctionData()]. *)
Definition load (ch : Chain) (now : Z) (s : App) : App :=
  initializeAuctionData ch now (initializeApp ch now s).

(** The click on #wallet-button. *)
Definition clickWallet (CONFIG : Config) (ch : Chain) (w : WalletReply)
    (s : App) : App :=
  match userAddress (session s) with
  | Some (_ :: _) => disconnectWallet ch s
  | _ => snd (connectWallet CONFIG ch w s)
  end.

(** ** The client as a machine *)

(** What can happen to the page.  Asynchronous functions are run to
    their end in one step, against the answers of one [World]; the runs
    of [processDataQueue], whose suspension the flag [isProcessing] is
    about, are resumed by steps of their own. *)
Inductive Event :=
| PageLoad
| PeriodicTick
| CountdownTick
| Emit (c : ContractId) (ev : ContractEvent)
| SetupEventListener
| ClickWallet (w : WalletReply)
| AccountsChanged (accounts : list Address) (w : WalletReply)
| ClickContribute (w : WalletReply)
| ClickSubmitBid (bidAmount : option Z) (message : jsstring)
| ClickRegister
| ClickSubmitName (value : jsstring)
| BatchResolved (k : nat)
| BatchRejected (k : nat)
| PauseElapsed (k : nat).

(** The chain as it answers during a step, and [Date.now()]. *)
Record World := mkWorld { chain : Chain; now : Z }.

Definition step (CONFIG : Config) (w : World) (e : Event) (s : App) : App :=
  match e with
  | PageLoad => load (chain w) (now w) s
  | PeriodicTick => periodicTick CONFIG (chain w) (now w) s
  | CountdownTick => countdownTick (now w) s
  | Emit c ev => deliver CONFIG (chain w) c ev s
  | SetupEventListener => setupEventListener s
  | ClickWallet r => clickWallet CONFIG (chain w) r s
  | AccountsChanged accounts r =>
      handleAccountsChanged CONFIG (chain w) accounts r s
  | ClickContribute r => contribute CONFIG r (chain w) s
  | ClickSubmitBid bidAmount message => onSubmitBid (chain w) bidAmount message s
  | ClickRegister => handleRegister s
  | ClickSubmitName value => onSubmitName (chain w) value s
  | BatchResolved k => batchResolved CONFIG k s
  | BatchRejected k => batchRejected CONFIG k s
  | PauseElapsed k => pauseElapsed CONFIG k s
  end.

Definition run (CONFIG : Config) (l : list (World * Event)) (s : App) : App :=
  fold_left (fun s we => step CONFIG (fst we) (snd we) s) l s.

(** The states the client can be in. *)
Inductive reachable (CONFIG : Config) : App -> Prop :=
| reachable_initial : reachable CONFIG initialApp
| reachable_step w e s :
    reachable CONFIG s -> reachable CONFIG (step CONFIG w e s).

(** The actions a step added to the log: the log of [s'] past the
    length of the log of [s]. *)
Definition since (s s' : App) : list Action :=
  skipn (List.length (log s)) (log s').

(** ** Scenarios *)

Module Scenario.

Definition alice : Address := Js.lit "0xA11ce".
Definition bob : Address := Js.lit "0xB0b".

Definition config : Config :=
  {| NETWORK_NAME := Js.lit "Base"; BATCH_SIZE := 2;
     CACHE_DURATION := 30000; UPDATE_INTERVAL := 10000 |}.

(** A chain with the given bid history, on which alice has paid [paid]
    before and every call succeeds. *)
Definition chainWith (history : list (option Bid)) (paid : Z) : Chain :=
  {| ch_endTime := Some 2000000000;
     ch_bidHistory := history;
     ch_addressToName := fun _ => Some [];
     ch_fullBids := fun a => Some (if Js.eqb a alice then paid else 0);
     ch_register := fun _ => TxSent None;
     ch_contribute := fun _ _ => TxSent None;
     ch_readError := Js.lit "call revert exception" |}.

Definition bidOf (who : Address) (total : Z) (text : string) : option Bid :=
  Some {| sender := who; amount := total; content := Js.lit text |}.

(** Three bids, of rising totals. *)
Definition threeBids : list (option Bid) :=
  [bidOf bob 1000000000000000 "first";
   bidOf alice 2000000000000000 "second";
   bidOf bob 3000000000000000 "third"].

Definition world (ch : Chain) : World := {| chain := ch; now := 1700000000000 |}.

(** The page is loaded while the bid history cannot be read, alice
    connects and opens the bid modal; she has paid 0.003 ETH before. *)
Definition aliceAtModal : App :=
  run config [(world (chainWith [] 3000000000000000), PageLoad);
              (world (chainWith [] 3000000000000000),
               ClickContribute (Accounts alice OnNetwork))] initialApp.

(** The page is loaded on [threeBids], alice (who paid nothing before)
    opens the bid modal. *)
Definition aliceAfterThree : App :=
  run config [(world (chainWith threeBids 0), PageLoad);
              (world (chainWith threeBids 0),
               ClickContribute (Accounts alice OnNetwork))] initialApp.

(** Alice is connected and has opened the registration modal. *)
Definition aliceRegistering : App :=
  run config [(world (chainWith threeBids 0), PageLoad);
              (world (chainWith threeBids 0), ClickWallet (Accounts alice OnNetwork));
              (world (chainWith threeBids 0), ClickRegister)] initialApp.

End Scenario.

(** ** Submissions *)

(** What the user can submit.  [bidAmount] is the result of
    [ethers.utils.parseEther(bidInput.value)], the first statement of the
    bid handler: [None] when it throws (empty or malformed text), which
    ends the handler before its length test. *)
Inductive Submission :=
| SubmitBid (bidAmount : option Z) (message : jsstring)
| SubmitName (value : jsstring).

(** The click on the submit button of the modal the submission is for. *)
Definition submit (ch : Chain) (x : Submission) (s : App) : App :=
  match x with
  | SubmitBid bidAmount message => onSubmitBid ch bidAmount message s
  | SubmitName value => onSubmitName ch value s
  end.

(** The submit handler of that modal is installed. *)
Definition installed (x : Submission) (s : App) : Prop :=
  match x with
  | SubmitBid _ _ => submitBid s <> None
  | SubmitName _ => submitName s = true
  end.

(** A message over 256 units; a name that, trimmed, is empty or over 32
    units. *)
Definition badLength (x : Submission) : Prop :=
  match x with
  | SubmitBid _ message => Js.length message > 256
  | SubmitName value =>
      Js.length (Js.trim value) < 1 \/ Js.length (Js.trim value) > 32
  end.

Definition isErrorStatus (a : Action) : bool :=
  match a with
  | ShowStatus _ error => true
  | _ => false
  end.

(** ** Reading the log and the auction state *)

(** The indices at which a log reads [bidHistory], in order. *)
Fixpoint bidReads (l : list Action) : list nat :=
  match l with
  | ChainCall _ (CallBidHistory i) :: l => i :: bidReads l
  | _ :: l => bidReads l
  | [] => []
  end.

(** The current-bid projection: [currentBid], [lastBidder], [lastMessage]. *)
Definition current (s : App) : option Z * option Address * option jsstring :=
  (currentBid (auction s), lastBidder (auction s), lastMessage (auction s)).

Definition shows (b : Bid) (s : App) : Prop :=
  current s = (Some (amount b), Some (sender b), Some (content b)).

(** Bid records arriving as [NewBid] events, each with its index. *)
Definition applyBid (ch : Chain) (r : nat * Bid) (s : App) : App :=
  handleNewBid ch (sender (snd r)) (amount (snd r)) (content (snd r)) (fst r) s.

Definition applyBids (ch : Chain) (l : list (nat * Bid)) (s : App) : App :=
  fold_left (fun s r => applyBid ch r s) l s.

(** The records come in non-decreasing index order. *)
Definition indexOrdered (l : list (nat * Bid)) : Prop :=
  forall l1 r1 r2 l2, l = l1 ++ r1 :: r2 :: l2 -> (fst r1 <= fst r2)%nat.

(** As in the contract's history, a record of a higher or equal index
    carries a higher or equal amount. *)
Definition amountsRise (l : list (nat * Bid)) : Prop :=
  forall r1 r2, In r1 l -> In r2 l -> (fst r1 <= fst r2)%nat ->
    amount (snd r1) <= amount (snd r2).

(** Indices [0..k-1] of the history can be read and [k] cannot. *)
Definition historyEndsAt (ch : Chain) (k : nat) : Prop :=
  (forall i, (i < k)%nat -> readBid ch i <> None) /\ readBid ch k = None.

(** ** A replayed event *)

Module Replay.

Import Scenario.

(** The page was loaded when the history held one bid; then two bids
    are made, and the contract emits a [NewBid] for each. *)
Definition history : list (option Bid) := [bidOf bob 1000000000000000 "first"].

Definition loaded : World := world (chainWith history 0).

Definition second : ContractEvent :=
  EvNewBid alice 2000000000000000 (Js.lit "second") 1 (Js.lit "0x5ec0").

Definition third : ContractEvent :=
  EvNewBid bob 3000000000000000 (Js.lit "third") 2 (Js.lit "0x7217").

Definition bothDelivered : App :=
  run config [(loaded, PageLoad); (loaded, Emit 0%nat second);
              (loaded, Emit 0%nat third)] initialApp.

(** ... and the event of the older bid is delivered once more. *)
Definition replayed : App := step config loaded (Emit 0%nat second) bothDelivered.

End Replay.

(** ** Invariants *)

(** The listeners after [removeAllListeners(e)] then [on(e, h)]. *)
Definition relistened (e : EventName) (h : Handler) (x : Session)
    : ContractId -> EventName -> list Handler :=
  listeners (on e h (removeAllListeners e x)).

(** No contract object holds two listeners for one event. *)
Definition singleSubscription (s : App) : Prop :=
  forall c e, (List.length (listeners (session s) c e) <= 1)%nat.

(** The flag [isProcessing] is set exactly while a run of
    [processDataQueue] is suspended, and there is at most one such run. *)
Definition singleDrain (s : App) : Prop :=
  (List.length (drains s) <= 1)%nat
  /\ (isProcessing (cache s) = true <-> drains s <> []).

(** What a step leaves of the queue and of the listeners. *)
Definition quiet (s s' : App) : Prop :=
  cache s' = cache s /\ drains s' = drains s
  /\ listeners (session s') = listeners (session s).

(** The functions of the queue leave the session, the auction, the page
    and [lastUpdate] alone. *)
Definition besidesQueue (s s' : App) : Prop :=
  session s' = session s /\ auction s' = auction s /\ page s' = page s
  /\ lastUpdate (cache s') = lastUpdate (cache s).

(** What the countdown reads and writes. *)
Definition timerView (s : App) : option Z * option TimerText * bool :=
  (endTimeValue (auction s), auctionTimer (page s), contributeDisabled (page s)).

(** The clock shows the end of the auction, and #contribute-button, the
    button that opens the bid modal, is disabled. *)
Definition ended (s : App) : Prop :=
  auctionTimer (page s) = Some AuctionEnded /\ contributeDisabled (page s) = true.

(** The deadline in force is [e], and the countdown has ended. *)
Definition endedAt (e : Z) (s : App) : Prop :=
  endTimeValue (auction s) = Some e /\ ended s.

(** During the run the deadline read from the chain is [e] whenever it
    can be read, and the clock is not before [t]. *)
Definition sameDeadline (e t : Z) (l : list (World * Event)) : Prop :=
  Forall (fun we => (ch_endTime (chain (fst we)) = Some e
                     \/ ch_endTime (chain (fst we)) = None)
                    /\ t <= now (fst we)) l.



(** The events that carry a suspended run through [n] more batches. *)
Fixpoint resume (w : World) (n : nat) : list (World * Event) :=
  match n with
  | O => []
  | S n => (w, BatchResolved 0) :: (w, PauseElapsed 0) :: resume w n
  end.



(** The clicks of the user, the wallet's notifications and the ticks
    of the countdown. *)
Definition isClick (e : Event) : bool :=
  match e with
  | CountdownTick | ClickWallet _ | AccountsChanged _ _ | ClickContribute _
  | ClickSubmitBid _ _ | ClickRegister | ClickSubmitName _ => true
  | _ => false
  end.

(** While [contract] is the object made at start-up, no other object
    holds a listener. *)
Definition onlyFirstContract (s : App) : Prop :=
  contract (session s) = 0%nat
  /\ forall c e, c <> 0%nat -> listeners (session s) c e = [].

(** No wallet event: [contract] is not replaced. *)
Definition keepsContract (e : Event) : bool :=
  match e with
  | ClickWallet _ | AccountsChanged _ _ | ClickContribute _ => false
  | _ => true
  end.

(** ** A burst of [DataUpdated] events *)

Module Burst.

Import Scenario.

Definition w : World := world (chainWith threeBids 0).

Definition updated (id : Z) (hash : string) : World * Event :=
  (w, Emit 0%nat (EvDataUpdated id (Js.lit hash))).

(** The listener is set up and a first event starts a drain: the batch
    [[1]] is in flight. *)
Definition draining : App :=
  run config [(w, SetupEventListener); updated 1 "0xa1"] initialApp.

(** Three more events arrive meanwhile. *)
Definition queued : App :=
  run config [updated 2 "0xa2"; updated 3 "0xa3"; updated 4 "0xa4"] draining.

End Burst.

(** ** Repeated initialization *)

Module Reinit.

Import Scenario.

Definition w : World := world (chainWith threeBids 0).

(** The page is loaded, the periodic callback fires twice, and
    [setupEventListener] is called twice. *)
Definition events : list (World * Event) :=
  [(w, PageLoad); (w, PeriodicTick); (w, SetupEventListener);
   (w, PeriodicTick); (w, SetupEventListener)].

End Reinit.

(** ** The deadline passes *)

Module Deadline.

Import Scenario.

(** The deadline of [chainWith] is 2000000000 s.  The page is loaded a
    while before, and a tick of the countdown falls on the deadline. *)
Definition before : App :=
  run config [(world (chainWith threeBids 0), PageLoad)] initialApp.

Definition atDeadline : Z := 2000000000000.

Definition later (ms : Z) : World :=
  {| chain := chainWith threeBids 0; now := atDeadline + ms |}.

(** What follows: ticks, a periodic re-initialization, a new bid. *)
Definition after : list (World * Event) :=
  [(later 1000, CountdownTick); (later 1500, PeriodicTick);
   (later 2000, CountdownTick);
   (later 2500, Emit 0%nat (EvNewBid alice 4000000000000000 [] 3 []));
   (later 3000, CountdownTick)].

End Deadline.

(** ** Reading the log, continued *)

Definition isChainCall (a : Action) : bool :=
  match a with
  | ChainCall _ _ => true
  | _ => false
  end.

(** A step that added no chain write to the log. *)
Definition readOnly (s s' : App) : Prop :=
  exists l, log s' = log s ++ l /\ chainWrites l = [].

(** The two submit clicks. *)
Definition isSubmit (e : Event) : bool :=
  match e with
  | ClickSubmitBid _ _ | ClickSubmitName _ => true
  | _ => false
  end.

(** The network check of [connectWallet] fails on this reply. *)
Definition networkFails (n : NetworkReply) : Prop :=
  match n with
  | OnNetwork | SwitchAsked None => False
  | SwitchAsked (Some _) | ChainIdFailed _ => True
  end.

(** Alice's wallet is on another network and refuses the switch. *)
Definition wrongNetwork : WalletReply :=
  Accounts Scenario.alice (SwitchAsked (Some (Js.lit "user rejected the request"))).

(** The contract objects not yet made hold no listener, and [contract]
    is one that was made. *)
Definition freshClean (s : App) : Prop :=
  (contract (session s) < freshId (session s))%nat
  /\ forall c e, (freshId (session s) <= c)%nat -> listeners (session s) c e = [].

(** What a step may do to the contract objects: nothing, or make a new
    one and put it in [contract]; the listeners stay where they are. *)
Definition contractKeptOrReplaced (x x' : Session) : Prop :=
  listeners x' = listeners x
  /\ ((contract x' = contract x /\ freshId x' = freshId x)
      \/ (contract x' = freshId x /\ freshId x' = S (freshId x))).

(** The wallet button and the wallet's account notification. *)
Definition isWalletEvent (e : Event) : bool :=
  match e with
  | ClickWallet _ | AccountsChanged _ _ => true
  | _ => false
  end.

(** Alice has opened the bid modal; then the wallet reports that the
    account is now bob. *)
Definition accountSwitched : App :=
  step Scenario.config (Scenario.world (Scenario.chainWith Scenario.threeBids 0))
    (AccountsChanged [Scenario.bob] (Accounts Scenario.bob OnNetwork))
    Scenario.aliceAfterThree.

(** What [updateDisplay] writes. *)
Definition display (s : App) : option Winner * option Z * option jsstring :=
  (currentWinner (page s), minNextBid (page s), winnerMessage (page s)).

(** The deadline cannot be read, or does not fit [toNumber]. *)
Definition deadlineUnusable (ch : Chain) : Prop :=
  match ch_endTime ch with
  | None => True
  | Some e => 2 ^ 53 <= Z.abs e
  end.

(** The queue holds no identifier twice, and holds none while no run
    of [processDataQueue] is in progress. *)
Definition tidyQueue (s : App) : Prop :=
  NoDup (pendingUpdates (cache s))
  /\ (isProcessing (cache s) = false -> pendingUpdates (cache s) = []).

(** [n] rounds of pause and empty batch. *)
Fixpoint emptyRounds (n : nat) : list Action :=
  match n with
  | O => []
  | S n => Delay 100 :: FetchBatch [] :: emptyRounds n
  end.

(** ** Status texts *)

(** [String.prototype.includes], with its helper. *)
Fixpoint startsWith (p s : jsstring) : bool :=
  match p, s with
  | [], _ => true
  | c :: p', d :: s' => (c =? d)%N && startsWith p' s'
  | _ :: _, [] => false
  end.

Fixpoint includes (s p : jsstring) : bool :=
  startsWith p s
  || match s with
     | [] => false
     | _ :: s' => includes s' p
     end.

(** The code units of "(" and "{". *)
Definition isOpening (c : N) : bool := ((c =? 40) || (c =? 123))%N.

(** What [/^([^({])+/] matches: the longest prefix free of "(" and "{";
    the match fails when that prefix is empty. *)
Fixpoint leadingClause (s : jsstring) : jsstring :=
  match s with
  | c :: s' => if isOpening c then [] else c :: leadingClause s'
  | [] => []
  end.

(** The text [showStatus(message, type)] puts in the status element,
    for a message that is a string. *)
Definition displayMessage (message : jsstring) : jsstring :=
  if includes message (Js.lit "user rejected") then
    Js.lit "User rejected transaction"
  else if includes message (Js.lit "insufficient funds") then
    Js.lit "Insufficient funds"
  else if includes message (Js.lit "ACTION_REJECTED") then
    Js.lit "Transaction cancelled"
  else
    match leadingClause message with
    | [] => message
    | c :: m => Js.trim (c :: m)
    end.

(** None of the three known patterns occurs in the message. *)
Definition unknownError (message : jsstring) : Prop :=
  includes message (Js.lit "user rejected") = false
  /\ includes message (Js.lit "insufficient funds") = false
  /\ includes message (Js.lit "ACTION_REJECTED") = false.

(** An error text as ethers words it. *)
Definition gasError : jsstring :=
  Js.lit "cannot estimate gas; transaction may fail (error={code:-32000})".

(** ** Addresses in short *)

(** [String.prototype.slice(start, end)]; [None] for an absent [end]. *)
Definition slice (s : jsstring) (start : Z) (stop : option Z) : jsstring :=
  let len := Js.length s in
  let clamp i := if i <? 0 then Z.max (len + i) 0 else Z.min i len in
  let from := clamp start in
  let to := match stop with Some e => clamp e | None => len end in
  firstn (Z.to_nat (Z.max (to - from) 0)) (skipn (Z.to_nat from) s).

(** [`${a.slice(0, 6)}...${a.slice(-4)}`], as in [updateWalletDisplay]
    and [updateDisplay]. *)
Definition abbreviate (a : Address) : jsstring :=
  slice a 0 (Some 6) ++ Js.lit "..." ++ slice a (-4) None.

(** ** The wallet panel *)



(** [userAddress] is set and not empty. *)
Definition connected (user : option Address) : bool :=
  match user with
  | Some (_ :: _) => true
  | _ => false
  end.


(** No unit of the text is "(" or "{". *)
Definition freeOfOpenings (t : jsstring) : bool :=
  forallb (fun c => negb (isOpening c)) t.

(** ** The preview in the bid modal *)

(** The text of the amount input: empty, a decimal that [parseEther]
    accepts (given in wei), or anything else. *)
Inductive AmountText :=
| EmptyAmount
| Amount (wei : Z)
| NotAnAmount.

(** [ethers.utils.parseEther(text)]; the empty text is rejected too. *)
Definition parseAmount (t : AmountText) : option Z :=
  match t with
  | Amount wei => Some wei
  | _ => None
  end.

(** [updatePreviousBidsInfo()]: whether the line "Your previous bids
    amount to ... You will only send ..." is displayed, and the amount
    it announces.  The input is read as [bidInput.value || '0'].
    [None]: [parseEther] threw, the line is left as it was. *)
Definition updatePreviousBidsInfo (userFullBid : Z) (t : AmountText)
    : option (option Z) :=
  match (match t with EmptyAmount => Some 0 | _ => parseAmount t end) with
  | None => None
  | Some bidAmount =>
      let amountToSend := bidAmount - userFullBid in
      if userFullBid >? 0 then Some (Some amountToSend) else Some None
  end.

(** ** Reading items in batches *)

Section FetchData.

(** [contract.getData] and [CONFIG.MAX_ITEMS] are not defined in app.js. *)
Variables Data Failure : Type.
Variable getData : Z -> Data + Failure.
Variable MAX_ITEMS : Z.

(** [{ index, data, error }]; [None] is [null]. *)
Record Item := mkItem {
  itemIndex : Z;
  itemData : option Data;
  itemError : option Failure
}.

(** [contract.getData(i).then(...).catch(...)]. *)
Definition fetchItem (i : Z) : Item :=
  match getData i with
  | inl data => {| itemIndex := i; itemData := Some data; itemError := None |}
  | inr e => {| itemIndex := i; itemData := None; itemError := Some e |}
  end.

(** The [for] loop of [fetchDataBatch], from [i]; each round is bounded
    by [i < batchSize], so [batchSize] rounds are enough. *)
Fixpoint fetchLoop (fuel : nat) (startIndex batchSize i : Z) : list Item :=
  match fuel with
  | O => []
  | S fuel =>
      if (i <? batchSize) && (startIndex + i <? MAX_ITEMS) then
        fetchItem (startIndex + i) :: fetchLoop fuel startIndex batchSize (i + 1)
      else []
  end.

(** [fetchDataBatch(startIndex, batchSize)], for whole numbers. *)
Definition fetchDataBatch (startIndex batchSize : Z) : list Item :=
  fetchLoop (Z.to_nat batchSize) startIndex batchSize 0.

End FetchData.

(** A history of four bids whose third entry cannot be read. *)
Definition brokenHistory : list (option Bid) :=
  [Scenario.bidOf Scenario.bob 1000000000000000 "first";
   Scenario.bidOf Scenario.alice 2000000000000000 "second";
   None;
   Scenario.bidOf Scenario.alice 4000000000000000 "fourth"].

(** The listener of [input] on the message field: whether it leaves
    the submit button disabled. *)
Definition onMessageInput (value : jsstring) : bool :=
  if Js.length value >? 256 then true else false.

(** ** A bid after the end *)

Module LateBid.

Import Scenario.

(** Alice has opened the bid modal, as in [aliceAfterThree], before the
    deadline; a tick of the countdown then falls on the deadline. *)
Definition atEnd : App :=
  step config (Deadline.later 0) CountdownTick aliceAfterThree.

(** A second later she clicks the submit button of the modal, which is
    still open, with a total of 0.0035 ETH and no message. *)
Definition click : App :=
  step config (Deadline.later 1000)
       (ClickSubmitBid (Some 3500000000000000) []) atEnd.

End LateBid.

(** ** A wallet connected between two initializations *)

Module Reconnect.

Import Scenario.

Definition w : World := world (chainWith threeBids 0).

(** The page is loaded, alice connects her wallet (which replaces
    [contract]), and the periodic callback fires. *)
Definition events : list (World * Event) :=
  [(w, PageLoad); (w, ClickWallet (Accounts alice OnNetwork));
   (w, PeriodicTick)].

Definition state : App := run config events initialApp.

(** One bid on the chain: its [NewBid] log reaches every contract object
    that listens, the one made at the start and the one made on connect. *)
Definition bid : ContractEvent :=
  EvNewBid bob 4000000000000000 (Js.lit "fourth") 3 (Js.lit "0xf00d").

Definition delivered : App :=
  run config [(w, Emit 0%nat bid); (w, Emit 1%nat bid)] state.

End Reconnect.

(** ** The [NewBid] listener, in its two parts *)

(** The body of the listener up to the [then]: the three globals are
    assigned and the read of the bidder's name is started. *)
Definition newBidArrives (bidder : Address) (amount : Z) (content : jsstring)
    (s : App) : App :=
  call (CallAddressToName bidder)
       (withAuction (setBid bidder amount content) s).

(** The callback of the [then], for a read answered with [name].  It runs
    in a task of its own, after whatever other listener ran in between,
    and redraws from the globals as they are by then. *)
Definition nameArrives (name : jsstring) (s : App) : App :=
  updateDisplay (withAuction (setBidderName name) s).

(** * Properties *)

(** Case analysis on the innermost scrutinees of the goal. *)
Ltac cases :=
  repeat match goal with
         | |- context [match ?x with _ => _ end] =>
             lazymatch x with
             | context [match _ with _ => _ end] => fail
             | _ => destruct x eqn:?
             end
         end.

(** ** The log *)

Lemma since_app (s s' : App) (l : list Action) :
  log s' = log s ++ l -> since s s' = l.
Proof.
  intros E. unfold since. rewrite E.
  rewrite skipn_app, skipn_all, Nat.sub_diag. reflexivity.
Qed.

Lemma log_call c s :
  log (call c s) = log s ++ [ChainCall (contract (session s)) c].
Proof. reflexivity. Qed.

Lemma log_showStatus m t s :
  log (showStatus m t s) = log s ++ [ShowStatus (Js.lit m) t].
Proof. reflexivity. Qed.

(** What [afterWrite] adds holds no chain call. *)
Lemma afterWrite_log close done o s :
  exists l, log (afterWrite close done o s) = log s ++ l /\ chainWrites l = [].
Proof.
  destruct o as [m | [m|]]; simpl.
  - exists [ShowStatus m error]. split; reflexivity.
  - eexists. split.
    + rewrite <- !app_assoc. reflexivity.
    + reflexivity.
  - eexists. split.
    + rewrite <- !app_assoc. reflexivity.
    + reflexivity.
Qed.

(** ** Bid submission *)

(** The submit handler of the bid modal, for a message within the limit:
    its first action is the [contribute] call with value [T - P], and no
    other chain write follows. *)
Lemma onSubmitBid_sends ch s P T message :
  submitBid s = Some P ->
  Js.length message <= 256 ->
  exists l,
    since s (onSubmitBid ch (Some T) message s)
    = ChainCall (contract (session s)) (CallContribute message (T - P)) :: l
    /\ chainWrites l = [].
Proof.
  intros HP Hm. unfold onSubmitBid. rewrite HP.
  destruct (Js.length message >? 256) eqn:E; [apply Z.gtb_lt in E; lia|].
  destruct (afterWrite_log (fun p => setBidModal (bidInput p) false p)
              "Bid placed successfully!" (ch_contribute ch message (T - P))
              (call (CallContribute message (T - P)) s)) as [l [Hl Hw]].
  exists l. split; [|exact Hw].
  apply since_app. rewrite Hl, log_call, <- app_assoc. reflexivity.
Qed.

(** C1 (counterexample).  Alice has paid 0.003 ETH before and asks for a
    total of 0.002 ETH, above the minimum the client computes (no bid is
    known to it): [T - P] is negative, and the handler calls [contribute]
    with the value -0.001 ETH. *)
Lemma negative_delta_is_submitted :
  submitBid Scenario.aliceAtModal = Some 3000000000000000
  /\ 2000000000000000 > nextMinBid (currentBid (auction Scenario.aliceAtModal))
  /\ 2000000000000000 - 3000000000000000 < 0
  /\ chainWrites
       (since Scenario.aliceAtModal
          (onSubmitBid (Scenario.chainWith [] 3000000000000000)
             (Some 2000000000000000) [] Scenario.aliceAtModal))
     = [ChainCall 1%nat (CallContribute [] (-1000000000000000))].
Proof. repeat split. Qed.

(** C1 (amended).  For every ledger value [P] captured when the bid modal
    was opened, every requested total [T] and every message of at most 256
    units, the submit handler makes exactly one chain write: [contribute]
    with the message and the value [T - P], whatever the sign of [T - P]. *)
Theorem payment_delta ch s P T message :
  submitBid s = Some P ->
  Js.length message <= 256 ->
  chainWrites (since s (onSubmitBid ch (Some T) message s))
  = [ChainCall (contract (session s)) (CallContribute message (T - P))].
Proof.
  intros HP Hm.
  destruct (onSubmitBid_sends ch s P T message HP Hm) as [l [-> Hl]].
  simpl. rewrite Hl. reflexivity.
Qed.

Lemma payment_delta_witness :
  chainWrites
    (since Scenario.aliceAfterThree
       (onSubmitBid (Scenario.chainWith Scenario.threeBids 0)
          (Some 3500000000000000) (Js.lit "mine") Scenario.aliceAfterThree))
  = [ChainCall (contract (session Scenario.aliceAfterThree))
       (CallContribute (Js.lit "mine") (3500000000000000 - 0))].
Proof.
  apply (payment_delta (Scenario.chainWith Scenario.threeBids 0)
           Scenario.aliceAfterThree 0 3500000000000000 (Js.lit "mine")).
  - reflexivity.
  - vm_compute. discriminate.
Defined.

(** ** Input checks *)

(** C5 (counterexample).  The current bid is 0.003 ETH; alice submits a
    total of 0.001 ETH, below [currentBid + minIncrement].  No error is
    shown and [contribute] is called. *)
Lemma sub_minimum_bid_is_submitted :
  currentBid (auction Scenario.aliceAfterThree) = Some 3000000000000000
  /\ 1000000000000000 <= 3000000000000000 + minIncrement
  /\ installed (SubmitBid (Some 1000000000000000) []) Scenario.aliceAfterThree
  /\ filter isErrorStatus
       (since Scenario.aliceAfterThree
          (submit (Scenario.chainWith Scenario.threeBids 0)
             (SubmitBid (Some 1000000000000000) []) Scenario.aliceAfterThree)) = []
  /\ chainWrites
       (since Scenario.aliceAfterThree
          (submit (Scenario.chainWith Scenario.threeBids 0)
             (SubmitBid (Some 1000000000000000) []) Scenario.aliceAfterThree))
     = [ChainCall 1%nat (CallContribute [] 1000000000000000)].
Proof.
  split; [reflexivity|]. split; [vm_compute; discriminate|].
  split; [discriminate|]. split; reflexivity.
Qed.

(** C5 (amended).  For every message over 256 units and every name that,
    trimmed, is empty or over 32 units, the submit handler makes no chain
    call.  It shows one error status and does nothing else, except in the
    bid modal when [parseEther] rejects the amount text: that handler
    throws on its first statement, before the length test, and the click
    leaves the state as it was, with nothing shown. *)
Theorem bad_length_caught ch x s :
  installed x s ->
  badLength x ->
  filter isChainCall (since s (submit ch x s)) = []
  /\ match x with
     | SubmitBid None _ => submit ch x s = s
     | _ => exists message, since s (submit ch x s) = [ShowStatus message error]
     end.
Proof.
  assert (S : forall text,
             filter isChainCall (since s (showStatus text error s)) = []
             /\ exists message,
                  since s (showStatus text error s) = [ShowStatus message error]).
  { intros text.
    assert (E : since s (showStatus text error s)
                = [ShowStatus (Js.lit text) error]).
    { apply since_app. apply log_showStatus. }
    rewrite E. split; [reflexivity | eauto]. }
  destruct x as [[T|] message | value]; simpl; intros Hi Hb.
  - unfold onSubmitBid. destruct (submitBid s) as [P|]; [|congruence].
    assert (G : (Js.length message >? 256) = true) by (apply Z.gtb_lt; lia).
    rewrite G. apply S.
  - assert (N : onSubmitBid ch None message s = s).
    { unfold onSubmitBid. destruct (submitBid s); reflexivity. }
    rewrite N. split; [|reflexivity].
    unfold since. rewrite skipn_all. reflexivity.
  - unfold onSubmitName. rewrite Hi.
    destruct (Js.trim value) as [|c name] eqn:En.
    + apply S.
    + destruct Hb as [Hb | Hb].
      * unfold Js.length in Hb. simpl in Hb. lia.
      * assert (G : (Js.length (c :: name) >? 32) = true) by (apply Z.gtb_lt; lia).
        rewrite G. apply S.
Qed.

Lemma bad_length_caught_witness :
  filter isChainCall
    (since Scenario.aliceAfterThree
       (submit (Scenario.chainWith Scenario.threeBids 0)
          (SubmitBid None (repeat 97%N 257)) Scenario.aliceAfterThree)) = []
  /\ submit (Scenario.chainWith Scenario.threeBids 0)
       (SubmitBid None (repeat 97%N 257)) Scenario.aliceAfterThree
     = Scenario.aliceAfterThree.
Proof.
  apply (bad_length_caught (Scenario.chainWith Scenario.threeBids 0)
           (SubmitBid None (repeat 97%N 257)) Scenario.aliceAfterThree).
  - simpl. discriminate.
  - vm_compute. reflexivity.
Defined.

(** ** Minimum bid *)

(** C6.  The amount [updateDisplay] shows as the next minimum bid, and
    the amount [contribute] works with, is [minIncrement] (0.0004 ETH)
    when [currentBid] is not set and [currentBid + minIncrement] when it
    is; nothing else of the state enters it. *)
Theorem next_min_bid :
  (forall s, minNextBid (page (updateDisplay s))
             = Some (nextMinBid (currentBid (auction s))))
  /\ (forall ch u s,
        bidInput (page (openBidModal ch u s)) = bidInput (page s)
        \/ bidInput (page (openBidModal ch u s))
           = Some (nextMinBid (currentBid (auction s))))
  /\ nextMinBid None = minIncrement
  /\ (forall b, nextMinBid (Some b) = b + minIncrement)
  /\ minIncrement = 4 * 10 ^ 14.
Proof.
  repeat split.
  intros ch u s. unfold openBidModal.
  destruct (ch_fullBids ch u); [right | left]; reflexivity.
Qed.

(** ** Catch-up scan *)

Lemma bidReads_app l1 l2 : bidReads (l1 ++ l2) = bidReads l1 ++ bidReads l2.
Proof.
  induction l1 as [|a l1 IH]; [reflexivity|].
  destruct a as [c [| i | | | |] | | | |]; simpl; rewrite IH; reflexivity.
Qed.

(** The loop, started at [latestIndex] with [j] readable indices ahead
    and an unreadable one after them, stops at [latestIndex + j] after
    [j + 1] reads, given fuel for them; it changes the log only. *)
Lemma probe_run ch j : forall fuel latestIndex s,
  (j < fuel)%nat ->
  (forall i, (latestIndex < i <= latestIndex + j)%nat -> readBid ch i <> None) ->
  readBid ch (latestIndex + j + 1) = None ->
  probe fuel ch latestIndex s
  = (latestIndex + j,
     mkApp (session s) (cache s) (auction s) (page s) (submitBid s)
       (submitName s) (countdowns s) (drains s)
       (log s ++ map (fun i => ChainCall (contract (session s)) (CallBidHistory i))
                     (seq (latestIndex + 1) (j + 1))))%nat.
Proof.
  induction j as [|j IH]; intros fuel latestIndex s Hf Hex Hend.
  - destruct fuel as [|fuel]; [lia|]. simpl.
    replace (latestIndex + 0 + 1)%nat with (latestIndex + 1)%nat in Hend by lia.
    rewrite Hend. f_equal. lia.
  - destruct fuel as [|fuel]; [lia|]. simpl.
    destruct (readBid ch (latestIndex + 1)) eqn:E.
    + rewrite (IH fuel (latestIndex + 1)%nat); try lia.
      * simpl. f_equal; [lia|]. f_equal.
        rewrite <- app_assoc. simpl.
        replace (latestIndex + 1 + 1)%nat with (S (latestIndex + 1)) by lia.
        reflexivity.
      * intros i Hi. apply Hex. lia.
      * replace (latestIndex + 1 + j + 1)%nat with (latestIndex + S j + 1)%nat by lia.
        exact Hend.
    + exfalso. apply (Hex (latestIndex + 1)%nat); [lia | exact E].
Qed.

Lemma readBid_inside ch i : readBid ch i <> None ->
  (i < List.length (ch_bidHistory ch))%nat.
Proof.
  unfold readBid. intros H. apply nth_error_Some.
  destruct (nth_error (ch_bidHistory ch) i); congruence.
Qed.

(** The loop of [scan] reaches its [break] within the rounds it is given:
    more rounds change nothing. *)
Lemma probe_breaks ch : forall fuel latestIndex s extra,
  (List.length (ch_bidHistory ch) <= latestIndex + fuel)%nat ->
  probe (S fuel + extra) ch latestIndex s = probe (S fuel) ch latestIndex s.
Proof.
  induction fuel as [|fuel IH]; intros latestIndex s extra Hf.
  - simpl. destruct (readBid ch (latestIndex + 1)) eqn:E; [|reflexivity].
    assert (latestIndex + 1 < List.length (ch_bidHistory ch))%nat
      by (apply readBid_inside; congruence).
    lia.
  - change (probe (S (S fuel) + extra) ch latestIndex s)
      with (let s' := call (CallBidHistory (latestIndex + 1)) s in
            match readBid ch (latestIndex + 1) with
            | Some _ => probe (S fuel + extra) ch (latestIndex + 1) s'
            | None => (latestIndex, s')
            end).
    change (probe (S (S fuel)) ch latestIndex s)
      with (let s' := call (CallBidHistory (latestIndex + 1)) s in
            match readBid ch (latestIndex + 1) with
            | Some _ => probe (S fuel) ch (latestIndex + 1) s'
            | None => (latestIndex, s')
            end).
    cbv zeta. destruct (readBid ch (latestIndex + 1)); [|reflexivity].
    apply IH. lia.
Qed.

Lemma scan_run ch k s :
  (1 <= k)%nat -> historyEndsAt ch k ->
  scan ch s
  = ((k - 1)%nat,
     mkApp (session s) (cache s) (auction s) (page s) (submitBid s)
       (submitName s) (countdowns s) (drains s)
       (log s ++ map (fun i => ChainCall (contract (session s)) (CallBidHistory i))
                     (seq 1 k))).
Proof.
  intros Hk [Hex Hend]. unfold scan.
  assert (Hin : (k - 1 < List.length (ch_bidHistory ch))%nat)
    by (apply readBid_inside, Hex; lia).
  rewrite (probe_run ch (k - 1)).
  - simpl. replace (k - 1 + 1)%nat with k by lia. reflexivity.
  - lia.
  - intros i Hi. apply Hex. lia.
  - replace (0 + (k - 1) + 1)%nat with k by lia. exact Hend.
Qed.

Lemma bidReads_probes c l :
  bidReads (map (fun i => ChainCall c (CallBidHistory i)) l) = l.
Proof. induction l as [|i l IH]; simpl; [|rewrite IH]; reflexivity. Qed.

Lemma toNumber_safe e : Z.abs e < 2 ^ 53 -> toNumber e = Some e.
Proof.
  intros H. unfold toNumber.
  destruct (Z.abs e <? 2 ^ 53) eqn:E; [reflexivity|].
  apply Z.ltb_ge in E. lia.
Qed.

(** [initializeAuctionData] on a history that ends at [k], the deadline
    being readable: the log it adds, and the bid it leaves as current. *)
Lemma initializeAuctionData_run ch now e k s :
  (1 <= k)%nat -> historyEndsAt ch k ->
  ch_endTime ch = Some e -> Z.abs e < 2 ^ 53 ->
  exists b l,
    readBid ch (k - 1) = Some b
    /\ shows b (initializeAuctionData ch now s)
    /\ bidReads l = []
    /\ since s (initializeAuctionData ch now s)
       = ChainCall (contract (session s)) CallEndTime
         :: map (fun i => ChainCall (contract (session s)) (CallBidHistory i))
                (seq 1 k)
         ++ ChainCall (contract (session s)) (CallBidHistory (k - 1)) :: l.
Proof.
  intros Hk Hh He Hsafe.
  destruct (readBid ch (k - 1)) as [b|] eqn:Eb;
    [|exfalso; apply (proj1 Hh (k - 1)%nat); [lia | exact Eb]].
  unfold initializeAuctionData, startTimer, updateTimer.
  rewrite He. cbn [endTimeValue auction withAuction setEndTime call emit].
  rewrite (toNumber_safe e Hsafe).
  destruct (remainingAt e now <=? 0);
    rewrite (scan_run ch k _ Hk Hh); unfold fetchLatest;
    cbn [call emit session cache auction page submitBid submitName countdowns
         drains log withPage withCountdowns withAuction contract];
    rewrite Eb;
    destruct (ch_addressToName ch (sender b)) as [name|];
    exists b;
    (eexists; split; [reflexivity|]; split; [reflexivity|]; split;
     [|apply since_app; cbn; rewrite <- !app_assoc; cbn; reflexivity]);
    reflexivity.
Qed.

(** C4 (counterexample).  On a history of three bids (indices 0, 1, 2
    exist, 3 does not) the loop of the scan probes the indices 1, 2, 3:
    three existence probes, not four. *)
Lemma three_bids_three_probes :
  historyEndsAt (Scenario.chainWith Scenario.threeBids 0) 3
  /\ bidReads (since initialApp
                 (snd (scan (Scenario.chainWith Scenario.threeBids 0) initialApp)))
     = [1; 2; 3]%nat
  /\ List.length
       (bidReads (since initialApp
                    (snd (scan (Scenario.chainWith Scenario.threeBids 0) initialApp))))
     <> (3 + 1)%nat.
Proof.
  split; [split|split].
  - intros [|[|[|i]]] Hi; try discriminate. lia.
  - reflexivity.
  - reflexivity.
  - discriminate.
Qed.

(** C4 (amended).  When the indices 0..k-1 of the history exist and k
    does not (k >= 1), the loop of the start-up scan ends with
    [latestIndex = k - 1] after exactly k existence probes, at the indices
    1..k (index 0 is not probed); [initializeAuctionData] then reads the
    record at k-1, its k+1-th and last read of [bidHistory], and leaves
    that record as the current bid, bidder and message. *)
Theorem catch_up_scan ch now e k s :
  (1 <= k)%nat -> historyEndsAt ch k ->
  ch_endTime ch = Some e -> Z.abs e < 2 ^ 53 ->
  fst (scan ch s) = (k - 1)%nat
  /\ bidReads (since s (snd (scan ch s))) = seq 1 k
  /\ bidReads (since s (initializeAuctionData ch now s)) = seq 1 k ++ [(k - 1)%nat]
  /\ List.length (bidReads (since s (initializeAuctionData ch now s))) = (k + 1)%nat
  /\ exists b, readBid ch (k - 1) = Some b
               /\ shows b (initializeAuctionData ch now s).
Proof.
  intros Hk Hh He Hsafe.
  destruct (initializeAuctionData_run ch now e k s Hk Hh He Hsafe)
    as [b [l [Hb [Hs [Hl Hlog]]]]].
  assert (Hreads : bidReads (since s (initializeAuctionData ch now s))
                   = seq 1 k ++ [(k - 1)%nat]).
  { rewrite Hlog. cbn [bidReads]. rewrite bidReads_app, bidReads_probes.
    cbn [bidReads]. rewrite Hl. reflexivity. }
  rewrite (scan_run ch k s Hk Hh). cbn [fst snd].
  split; [reflexivity|]. split.
  - erewrite since_app by (cbn [log]; reflexivity). apply bidReads_probes.
  - split; [exact Hreads|]. split.
    + rewrite Hreads, length_app, length_seq. reflexivity.
    + exists b. split; assumption.
Qed.

Lemma catch_up_scan_witness :
  fst (scan (Scenario.chainWith Scenario.threeBids 0) initialApp) = (3 - 1)%nat
  /\ bidReads (since initialApp
                 (snd (scan (Scenario.chainWith Scenario.threeBids 0) initialApp)))
     = seq 1 3
  /\ bidReads (since initialApp
                 (initializeAuctionData (Scenario.chainWith Scenario.threeBids 0)
                    1700000000000 initialApp))
     = seq 1 3 ++ [(3 - 1)%nat]
  /\ List.length
       (bidReads (since initialApp
                    (initializeAuctionData (Scenario.chainWith Scenario.threeBids 0)
                       1700000000000 initialApp)))
     = (3 + 1)%nat
  /\ exists b, readBid (Scenario.chainWith Scenario.threeBids 0) (3 - 1) = Some b
               /\ shows b (initializeAuctionData
                             (Scenario.chainWith Scenario.threeBids 0)
                             1700000000000 initialApp).
Proof.
  apply (catch_up_scan (Scenario.chainWith Scenario.threeBids 0)
           1700000000000 2000000000 3 initialApp).
  - lia.
  - split.
    + intros [|[|[|i]]] Hi; try discriminate. lia.
    + reflexivity.
  - reflexivity.
  - vm_compute. reflexivity.
Defined.

(** ** Applying bids *)

Lemma applyBid_shows ch r s : shows (snd r) (applyBid ch r s).
Proof.
  unfold shows, current, applyBid, handleNewBid.
  destruct (ch_addressToName ch (sender (snd r))); reflexivity.
Qed.

Lemma applyBids_app ch l1 l2 s :
  applyBids ch (l1 ++ l2) s = applyBids ch l2 (applyBids ch l1 s).
Proof. apply fold_left_app. Qed.

(** The handler of [DataUpdated] does drop a transaction it has seen:
    once a hash is marked, a delivery carrying it changes nothing. *)
Lemma hasTransaction_added h l : hasTransaction h (l ++ [h]) = true.
Proof.
  unfold hasTransaction. rewrite existsb_app. simpl.
  assert (E : Js.eqb h h = true).
  { induction h as [|c h IH]; simpl; [reflexivity|].
    rewrite N.eqb_refl. exact IH. }
  rewrite E. apply orb_true_iff. right. reflexivity.
Qed.

Lemma handleDataUpdated_seen CONFIG id h s :
  hasTransaction h (processedTransactions (cache s)) = true ->
  handleDataUpdated CONFIG id h s = s.
Proof. intros H. unfold handleDataUpdated. rewrite H. reflexivity. Qed.

Lemma handleDataUpdated_marks CONFIG id h s :
  hasTransaction h (processedTransactions (cache (handleDataUpdated CONFIG id h s)))
  = true.
Proof.
  unfold handleDataUpdated.
  destruct (hasTransaction h (processedTransactions (cache s))) eqn:E;
    [exact E|].
  unfold processDataQueue, fetchBatch.
  cases; cbn; apply hasTransaction_added.
Qed.

Lemma handleDataUpdated_twice CONFIG id h s :
  handleDataUpdated CONFIG id h (handleDataUpdated CONFIG id h s)
  = handleDataUpdated CONFIG id h s.
Proof. apply handleDataUpdated_seen, handleDataUpdated_marks. Qed.

(** C2 (the code at the failing input).  The [NewBid] of the second bid
    is delivered, then that of the third, then that of the second once
    more, with the same transaction hash.  The listener keeps no record
    of transactions ([processedTransactions] stays empty), and the replay
    is applied: the page is back on the second bid. *)
Lemma replayed_bid_is_applied_again :
  current Replay.bothDelivered
  = (Some 3000000000000000, Some Scenario.bob, Some (Js.lit "third"))
  /\ current Replay.replayed
     = (Some 2000000000000000, Some Scenario.alice, Some (Js.lit "second"))
  /\ processedTransactions (cache Replay.replayed) = []
  /\ Replay.replayed <> Replay.bothDelivered.
Proof.
  repeat split. intros E.
  assert (H : current Replay.replayed = current Replay.bothDelivered)
    by (rewrite E; reflexivity).
  vm_compute in H. discriminate.
Qed.

(** C3 (counterexample).  After the bid of index 2 (0.003 ETH) is shown,
    the event of the bid of index 1 (0.002 ETH) arrives: the current
    bid, bidder and message go back to the older record. *)
Lemma older_bid_regresses :
  currentBid (auction Replay.bothDelivered) = Some 3000000000000000
  /\ shows {| sender := Scenario.alice; amount := 2000000000000000;
              content := Js.lit "second" |}
       (step Scenario.config Replay.loaded
          (Emit 0%nat (EvNewBid Scenario.alice 2000000000000000
                         (Js.lit "second") 1 (Js.lit "0x5ec0")))
          Replay.bothDelivered)
  /\ 2000000000000000 < 3000000000000000.
Proof. repeat split. Qed.

(** C3 (amended).  The listener of [NewBid] overwrites the current bid,
    bidder and message with those of the record it is given, whatever
    the index.  So when records arrive in non-decreasing index order,
    and amounts rise with the index as they do in the contract's history,
    [currentBid] after each apply is at least [currentBid] before it;
    a record of a lower index applied later replaces the newer one. *)
Theorem newBid_overwrites ch :
  (forall r s, shows (snd r) (applyBid ch r s))
  /\ (forall l1 r1 r2 l2 s,
        indexOrdered (l1 ++ r1 :: r2 :: l2) ->
        amountsRise (l1 ++ r1 :: r2 :: l2) ->
        currentBid (auction (applyBids ch (l1 ++ [r1]) s)) = Some (amount (snd r1))
        /\ currentBid (auction (applyBids ch (l1 ++ [r1; r2]) s))
           = Some (amount (snd r2))
        /\ amount (snd r1) <= amount (snd r2)).
Proof.
  split; [intros r s; apply applyBid_shows|].
  intros l1 r1 r2 l2 s Hi Ha. split; [|split].
  - rewrite applyBids_app. simpl.
    pose proof (applyBid_shows ch r1 (applyBids ch l1 s)) as H.
    unfold shows, current in H. congruence.
  - rewrite applyBids_app. simpl.
    pose proof (applyBid_shows ch r2 (applyBid ch r1 (applyBids ch l1 s))) as H.
    unfold shows, current in H. congruence.
  - apply Ha.
    + apply in_or_app. right. left. reflexivity.
    + apply in_or_app. right. right. left. reflexivity.
    + apply (Hi l1 r1 r2 l2). reflexivity.
Qed.

Lemma newBid_overwrites_witness :
  currentBid (auction (applyBids (Scenario.chainWith [] 0)
                         ([] ++ [(1%nat, mkBid Scenario.alice 2 [])]) initialApp))
  = Some 2
  /\ currentBid (auction (applyBids (Scenario.chainWith [] 0)
                            ([] ++ [(1%nat, mkBid Scenario.alice 2 []);
                                    (2%nat, mkBid Scenario.bob 3 [])]) initialApp))
     = Some 3
  /\ 2 <= 3.
Proof.
  apply (proj2 (newBid_overwrites (Scenario.chainWith [] 0))
           [] (1%nat, mkBid Scenario.alice 2 []) (2%nat, mkBid Scenario.bob 3 [])
           [] initialApp).
  - intros l1 r1 r2 l2 E. destruct l1 as [|x [|y l1]]; simpl in E.
    + assert (E1 : r1 = (1%nat, mkBid Scenario.alice 2 [])) by congruence.
      assert (E2 : r2 = (2%nat, mkBid Scenario.bob 3 [])) by congruence.
      subst. simpl. lia.
    + exfalso. congruence.
    + exfalso. destruct l1; simpl in E; congruence.
  - intros r1 r2 [<-|[<-|[]]] [<-|[<-|[]]] H; simpl in *; lia.
Defined.

(** ** What each function leaves alone *)

Lemma probe_frame ch : forall fuel latestIndex s,
  exists l,
    snd (probe fuel ch latestIndex s)
    = mkApp (session s) (cache s) (auction s) (page s) (submitBid s)
        (submitName s) (countdowns s) (drains s) (log s ++ l).
Proof.
  induction fuel as [|fuel IH]; intros latestIndex s; simpl.
  - exists []. rewrite app_nil_r. destruct s; reflexivity.
  - destruct (readBid ch (latestIndex + 1)).
    + destruct (IH (latestIndex + 1)%nat (call (CallBidHistory (latestIndex + 1)) s))
        as [l Hl].
      rewrite Hl. simpl. rewrite <- app_assoc. eexists. reflexivity.
    + eexists. reflexivity.
Qed.

Lemma scan_frame ch s :
  exists k l,
    scan ch s
    = (k, mkApp (session s) (cache s) (auction s) (page s) (submitBid s)
            (submitName s) (countdowns s) (drains s) (log s ++ l)).
Proof.
  destruct (probe_frame ch (S (List.length (ch_bidHistory ch))) 0%nat s) as [l Hl].
  unfold scan. destruct (probe _ ch 0%nat s) as [k s'] eqn:E.
  simpl in Hl. subst s'. exists k, l. reflexivity.
Qed.

(** The clicks, the wallet and the countdown touch neither the queue nor
    the listeners. *)
Lemma clicks_quiet CONFIG w e s :
  isClick e = true -> quiet s (step CONFIG w e s).
Proof.
  destruct e; try discriminate; intros _; simpl;
    unfold countdownTick, updateTimer, clickWallet, handleAccountsChanged,
      contribute, openBidModal, onSubmitBid, afterWrite, handleRegister,
      onSubmitName, disconnectWallet, connectWallet, checkAndSwitchNetwork, updateWalletDisplay;
    cases; repeat split; reflexivity.
Qed.

Lemma handleNewBid_quiet ch bidder amount content bidIndex s :
  quiet s (handleNewBid ch bidder amount content bidIndex s).
Proof. unfold handleNewBid. cases; repeat split; reflexivity. Qed.

(** [initializeAuctionData] leaves the queue alone; of the listeners it
    changes those of [NewBid] on the current contract, if it gets that far. *)
Lemma initializeAuctionData_frame ch now s :
  cache (initializeAuctionData ch now s) = cache s
  /\ drains (initializeAuctionData ch now s) = drains s
  /\ contract (session (initializeAuctionData ch now s)) = contract (session s)
  /\ (listeners (session (initializeAuctionData ch now s)) = listeners (session s)
      \/ listeners (session (initializeAuctionData ch now s))
         = relistened NewBid onNewBid (session s)).
Proof.
  unfold initializeAuctionData, startTimer, updateTimer.
  destruct (ch_endTime ch) as [e|]; [|repeat split; left; reflexivity].
  cbn [endTimeValue auction withAuction setEndTime call emit].
  destruct (toNumber e) as [e'|]; [|repeat split; left; reflexivity].
  destruct (remainingAt e' now <=? 0);
    match goal with
    | |- context [scan ch ?s0] =>
        destruct (scan_frame ch s0) as [k [l ->]]
    end;
    unfold fetchLatest; cbn [call emit session cache auction page submitBid
      submitName countdowns drains log withPage withCountdowns withAuction];
    cases; repeat split; right; reflexivity.
Qed.

Lemma processDataQueue_besides CONFIG s : besidesQueue s (processDataQueue CONFIG s).
Proof. unfold processDataQueue, fetchBatch. cases; repeat split; reflexivity. Qed.

Lemma handleDataUpdated_besides CONFIG id h s :
  besidesQueue s (handleDataUpdated CONFIG id h s).
Proof.
  unfold handleDataUpdated, processDataQueue, fetchBatch.
  cases; repeat split; reflexivity.
Qed.

Lemma batchResolved_besides CONFIG k s : besidesQueue s (batchResolved CONFIG k s).
Proof. unfold batchResolved, fetchBatch. cases; repeat split; reflexivity. Qed.

Lemma pauseElapsed_besides CONFIG k s : besidesQueue s (pauseElapsed CONFIG k s).
Proof. unfold pauseElapsed, fetchBatch. cases; repeat split; reflexivity. Qed.

Lemma batchRejected_besides CONFIG k s : besidesQueue s (batchRejected CONFIG k s).
Proof.
  unfold batchRejected, processDataQueue, fetchBatch.
  cases; repeat split; reflexivity.
Qed.

(** ** One drain at a time *)

Lemma singleDrain_quiet s s' : quiet s s' -> singleDrain s -> singleDrain s'.
Proof. unfold quiet, singleDrain. intros [-> [-> _]] H. exact H. Qed.

Lemma singleDrain_idle s :
  singleDrain s -> isProcessing (cache s) = false -> drains s = [].
Proof.
  intros [_ H] E. destruct (drains s) as [|d l]; [reflexivity|].
  assert (isProcessing (cache s) = true) by (apply H; discriminate).
  congruence.
Qed.

Lemma singleDrain_busy s k d :
  singleDrain s -> nth_error (drains s) k = Some d ->
  k = 0%nat /\ drains s = [d] /\ isProcessing (cache s) = true.
Proof.
  intros [Hl Hf] E. destruct (drains s) as [|d0 [|d1 l]] eqn:Ed.
  - destruct k; discriminate.
  - destruct k as [|k]; simpl in E.
    + injection E as ->. repeat split. apply Hf. discriminate.
    + destruct k; discriminate.
  - simpl in Hl. lia.
Qed.

Lemma processDataQueue_single CONFIG s :
  singleDrain s -> singleDrain (processDataQueue CONFIG s).
Proof.
  intros H. unfold processDataQueue.
  destruct (isProcessing (cache s)) eqn:E; [exact H|].
  pose proof (singleDrain_idle s H E) as Hd.
  cbn [cache withCache setProcessing pendingUpdates].
  destruct (pendingUpdates (cache s)) as [|u us]; unfold singleDrain; simpl.
  - rewrite Hd. simpl. split; [lia|]. split; [discriminate | congruence].
  - rewrite Hd. simpl. split; [lia|]. split; [discriminate | reflexivity].
Qed.

Lemma handleDataUpdated_single CONFIG id h s :
  singleDrain s -> singleDrain (handleDataUpdated CONFIG id h s).
Proof.
  intros H. unfold handleDataUpdated.
  destruct (hasTransaction h (processedTransactions (cache s))); [exact H|].
  destruct (toNumber id); [apply processDataQueue_single|]; exact H.
Qed.

Lemma batchResolved_single CONFIG k s :
  singleDrain s -> singleDrain (batchResolved CONFIG k s).
Proof.
  intros H. unfold batchResolved.
  destruct (nth_error (drains s) k) as [[r [|]]|] eqn:E; try exact H.
  destruct (singleDrain_busy s k _ H E) as [-> [Hd Hp]].
  destruct r as [|z r].
  - destruct (pendingUpdates (cache s)) as [|u us]; unfold singleDrain; simpl;
      rewrite Hd; simpl.
    + split; [lia|]. split; [discriminate | congruence].
    + split; [lia|]. split; [discriminate | exact (fun _ => Hp)].
  - unfold singleDrain; simpl. rewrite Hd. simpl.
    split; [lia|]. split; [discriminate | exact (fun _ => Hp)].
Qed.

Lemma pauseElapsed_single CONFIG k s :
  singleDrain s -> singleDrain (pauseElapsed CONFIG k s).
Proof.
  intros H. unfold pauseElapsed.
  destruct (nth_error (drains s) k) as [[r [|]]|] eqn:E; try exact H.
  destruct (singleDrain_busy s k _ H E) as [-> [Hd Hp]].
  unfold singleDrain; simpl. rewrite Hd. simpl.
  split; [lia|]. split; [discriminate | exact (fun _ => Hp)].
Qed.

Lemma batchRejected_single CONFIG k s :
  singleDrain s -> singleDrain (batchRejected CONFIG k s).
Proof.
  intros H. unfold batchRejected.
  destruct (nth_error (drains s) k) as [[r [|]]|] eqn:E; try exact H.
  destruct (singleDrain_busy s k _ H E) as [-> [Hd Hp]].
  assert (H' : singleDrain (withCache (setProcessing false)
                              (withDrains (removeAt 0) s))).
  { unfold singleDrain; simpl. rewrite Hd. simpl.
    split; [lia|]. split; [discriminate | congruence]. }
  cbn [cache withCache withDrains setProcessing pendingUpdates].
  destruct (pendingUpdates (cache s)); [exact H'|].
  apply processDataQueue_single. exact H'.
Qed.

Lemma invoke_single CONFIG ch h ev s :
  singleDrain s -> singleDrain (invoke CONFIG ch h ev s).
Proof.
  intros H. destruct h, ev; simpl; try exact H.
  - apply (singleDrain_quiet s); [apply handleNewBid_quiet | exact H].
  - apply handleDataUpdated_single. exact H.
Qed.

(** A property kept by every call of a listener is kept by a delivery. *)
Lemma deliver_keeps (P : App -> Prop) CONFIG ch ev :
  (forall h s, P s -> P (invoke CONFIG ch h ev s)) ->
  forall c s, P s -> P (deliver CONFIG ch c ev s).
Proof.
  intros Hinv c s. unfold deliver.
  generalize (listeners (session s) c (eventName ev)). intros hs. revert s.
  induction hs as [|h hs IH]; intros s Hs; simpl; [exact Hs|].
  apply IH, Hinv, Hs.
Qed.

Lemma initializeAuctionData_single ch now s :
  singleDrain s -> singleDrain (initializeAuctionData ch now s).
Proof.
  destruct (initializeAuctionData_frame ch now s) as [Hc [Hd _]].
  unfold singleDrain. rewrite Hc, Hd. trivial.
Qed.

Lemma step_single CONFIG w e s : singleDrain s -> singleDrain (step CONFIG w e s).
Proof.
  intros H.
  destruct (isClick e) eqn:Hk;
    [apply (singleDrain_quiet s); [apply clicks_quiet, Hk | exact H]|].
  destruct e; try discriminate; simpl.
  - unfold load, initializeApp, startPeriodicUpdates.
    do 3 apply initializeAuctionData_single. exact H.
  - unfold periodicTick.
    destruct (now w - lastUpdate (cache s) >? CACHE_DURATION CONFIG);
      [apply initializeAuctionData_single|]; exact H.
  - apply (deliver_keeps singleDrain); [|exact H].
    intros h s0. apply invoke_single.
  - exact H.
  - apply batchResolved_single, H.
  - apply batchRejected_single, H.
  - apply pauseElapsed_single, H.
Qed.

Lemma reachable_single CONFIG s : reachable CONFIG s -> singleDrain s.
Proof.
  induction 1 as [|w e s _ IH]; [|apply step_single, IH].
  split; [simpl; lia|]. split; [discriminate | intros H; exfalso; apply H; reflexivity].
Qed.

(** ** Batches *)




Lemma run_cons CONFIG w e l s :
  run CONFIG ((w, e) :: l) s = run CONFIG l (step CONFIG w e s).
Proof. reflexivity. Qed.





Lemma run_reachable CONFIG l : forall s,
  reachable CONFIG s -> reachable CONFIG (run CONFIG l s).
Proof.
  induction l as [|[w e] l IH]; intros s H; [exact H|].
  rewrite run_cons. apply IH, reachable_step, H.
Qed.





(** ** The cache timestamp *)

Lemma handleNewBid_session ch bidder amount content bidIndex s :
  session (handleNewBid ch bidder amount content bidIndex s) = session s.
Proof. unfold handleNewBid. cases; reflexivity. Qed.

Lemma invoke_lastUpdate CONFIG ch h ev s :
  lastUpdate (cache (invoke CONFIG ch h ev s)) = lastUpdate (cache s).
Proof.
  destruct h, ev as [bidder a text bidIndex hash | id hash]; simpl;
    try reflexivity.
  - destruct (handleNewBid_quiet ch bidder a text bidIndex s) as [-> _].
    reflexivity.
  - apply handleDataUpdated_besides.
Qed.

Lemma step_lastUpdate CONFIG w e s :
  lastUpdate (cache (step CONFIG w e s)) = lastUpdate (cache s).
Proof.
  destruct (isClick e) eqn:Hk;
    [destruct (clicks_quiet CONFIG w e s Hk) as [Hc _]; rewrite Hc; reflexivity|].
  destruct e; try discriminate; try reflexivity; simpl.
  - unfold load, initializeApp, startPeriodicUpdates.
    repeat rewrite (proj1 (initializeAuctionData_frame _ _ _)). reflexivity.
  - unfold periodicTick.
    destruct (now w - lastUpdate (cache s) >? CACHE_DURATION CONFIG);
      [rewrite (proj1 (initializeAuctionData_frame _ _ _))|]; reflexivity.
  - apply (deliver_keeps (fun s' => lastUpdate (cache s') = lastUpdate (cache s)));
      [|reflexivity].
    intros h s0 <-. apply invoke_lastUpdate.
  - apply batchResolved_besides.
  - apply batchRejected_besides.
  - apply pauseElapsed_besides.
Qed.

Lemma reachable_lastUpdate CONFIG s : reachable CONFIG s -> lastUpdate (cache s) = 0.
Proof.
  induction 1 as [|w e s _ IH]; [reflexivity|].
  rewrite step_lastUpdate. exact IH.
Qed.

Lemma relistened_at e h x c e' :
  relistened e h x c e'
  = if Nat.eqb c (contract x) && EventName_eqb e' e then [h] else listeners x c e'.
Proof.
  unfold relistened, on, removeAllListeners. simpl.
  destruct (Nat.eqb c (contract x) && EventName_eqb e' e); reflexivity.
Qed.

(** With a readable deadline, [initializeAuctionData] goes all the way:
    it reads the deadline, starts the scan with a probe of index 1, and
    ends by registering the listener of [NewBid] anew. *)
Lemma initializeAuctionData_full ch now e s :
  ch_endTime ch = Some e -> Z.abs e < 2 ^ 53 ->
  (exists l, since s (initializeAuctionData ch now s)
             = ChainCall (contract (session s)) CallEndTime
               :: ChainCall (contract (session s)) (CallBidHistory 1) :: l)
  /\ listeners (session (initializeAuctionData ch now s))
     = relistened NewBid onNewBid (session s).
Proof.
  intros He Hsafe.
  unfold initializeAuctionData, startTimer, updateTimer.
  rewrite He. cbn [endTimeValue auction withAuction setEndTime call emit].
  rewrite (toNumber_safe e Hsafe).
  destruct (remainingAt e now <=? 0);
    unfold scan; cbn [probe];
    match goal with
    | |- context [probe ?f ch ?i ?s0] =>
        destruct (probe_frame ch f i s0) as [l Hl];
        destruct (readBid ch (0 + 1));
        [destruct (probe f ch i s0) as [k s1]; simpl in Hl; subst s1 |]
    end;
    unfold fetchLatest; cbn [call emit session cache auction page submitBid
      submitName countdowns drains log withPage withCountdowns withAuction contract];
    cases;
    (split; [eexists; apply since_app; cbn; rewrite <- ?app_assoc; cbn; reflexivity
            | reflexivity]).
Qed.

(** C9.  [dataCache.lastUpdate] is 0 at the start and no function of
    app.js assigns it: it is 0 in every state the client can reach.  So
    the test of the periodic callback is [Date.now() > CACHE_DURATION],
    which holds at every tick for a cache duration below the current
    epoch time in ms, and every tick runs [initializeAuctionData] in
    full: deadline read, scan, listener of [NewBid] registered anew. *)
Theorem stale_guard_vacuous CONFIG w s :
  reachable CONFIG s ->
  CACHE_DURATION CONFIG < now w ->
  lastUpdate (cache s) = 0
  /\ (now w - lastUpdate (cache s) >? CACHE_DURATION CONFIG) = true
  /\ step CONFIG w PeriodicTick s = initializeAuctionData (chain w) (now w) s
  /\ (forall e, ch_endTime (chain w) = Some e -> Z.abs e < 2 ^ 53 ->
        (exists l, since s (step CONFIG w PeriodicTick s)
                   = ChainCall (contract (session s)) CallEndTime
                     :: ChainCall (contract (session s)) (CallBidHistory 1) :: l)
        /\ listeners (session (step CONFIG w PeriodicTick s))
           = relistened NewBid onNewBid (session s)).
Proof.
  intros Hr Hc.
  pose proof (reachable_lastUpdate CONFIG s Hr) as H0.
  assert (Hg : (now w - lastUpdate (cache s) >? CACHE_DURATION CONFIG) = true)
    by (rewrite H0; apply Z.gtb_lt; lia).
  assert (Hs : step CONFIG w PeriodicTick s
               = initializeAuctionData (chain w) (now w) s)
    by (simpl; unfold periodicTick; rewrite Hg; reflexivity).
  repeat split; try assumption; rewrite Hs;
    apply (initializeAuctionData_full (chain w) (now w) e s); assumption.
Qed.

Lemma stale_guard_vacuous_witness :
  lastUpdate (cache Scenario.aliceAfterThree) = 0
  /\ (now (Scenario.world (Scenario.chainWith Scenario.threeBids 0))
      - lastUpdate (cache Scenario.aliceAfterThree)
      >? CACHE_DURATION Scenario.config) = true
  /\ step Scenario.config (Scenario.world (Scenario.chainWith Scenario.threeBids 0))
       PeriodicTick Scenario.aliceAfterThree
     = initializeAuctionData (Scenario.chainWith Scenario.threeBids 0)
         1700000000000 Scenario.aliceAfterThree.
Proof.
  destruct (stale_guard_vacuous Scenario.config
              (Scenario.world (Scenario.chainWith Scenario.threeBids 0))
              Scenario.aliceAfterThree) as [A [B [C _]]].
  - unfold Scenario.aliceAfterThree. apply run_reachable, reachable_initial.
  - simpl. lia.
  - split; [exact A|]. split; [exact B | exact C].
Defined.

(** ** One listener per event *)

Lemma relistened_single e h s x :
  singleSubscription s ->
  listeners x = relistened e h (session s) ->
  forall c e', (List.length (listeners x c e') <= 1)%nat.
Proof.
  intros H E c e'. rewrite E, relistened_at.
  destruct (Nat.eqb c (contract (session s)) && EventName_eqb e' e);
    [simpl; lia | apply H].
Qed.

Lemma initializeAuctionData_subscription ch now s :
  singleSubscription s -> singleSubscription (initializeAuctionData ch now s).
Proof.
  intros H.
  destruct (initializeAuctionData_frame ch now s) as [_ [_ [_ [E | E]]]].
  - intros c e. rewrite E. apply H.
  - exact (relistened_single NewBid onNewBid s _ H E).
Qed.

Lemma invoke_session CONFIG ch h ev s :
  session (invoke CONFIG ch h ev s) = session s.
Proof.
  destruct h, ev as [bidder a text bidIndex hash | id hash]; simpl;
    try reflexivity.
  - apply handleNewBid_session.
  - apply handleDataUpdated_besides.
Qed.

Lemma deliver_session CONFIG ch c ev s :
  session (deliver CONFIG ch c ev s) = session s.
Proof.
  apply (deliver_keeps (fun s' => session s' = session s)); [|reflexivity].
  intros h s0 <-. apply invoke_session.
Qed.

(** Steps other than the (re-)initializations and [setupEventListener]
    leave the listeners as they are. *)
Lemma step_listeners CONFIG w e s :
  match e with
  | PageLoad | PeriodicTick | SetupEventListener => True
  | _ => listeners (session (step CONFIG w e s)) = listeners (session s)
  end.
Proof.
  destruct (isClick e) eqn:Hk.
  - destruct (clicks_quiet CONFIG w e s Hk) as [_ [_ Hl]].
    destruct e; try discriminate; exact Hl.
  - destruct e; try discriminate; try exact I; simpl.
    + rewrite deliver_session. reflexivity.
    + rewrite (proj1 (batchResolved_besides CONFIG k s)). reflexivity.
    + rewrite (proj1 (batchRejected_besides CONFIG k s)). reflexivity.
    + rewrite (proj1 (pauseElapsed_besides CONFIG k s)). reflexivity.
Qed.

Lemma step_subscription CONFIG w e s :
  singleSubscription s -> singleSubscription (step CONFIG w e s).
Proof.
  intros H. pose proof (step_listeners CONFIG w e s) as Hl.
  destruct e; try (intros c0 e0; rewrite Hl; apply H); simpl.
  - unfold load, initializeApp, startPeriodicUpdates.
    do 3 apply initializeAuctionData_subscription. exact H.
  - unfold periodicTick.
    destruct (now w - lastUpdate (cache s) >? CACHE_DURATION CONFIG);
      [apply initializeAuctionData_subscription|]; exact H.
  - exact (relistened_single DataUpdated onDataUpdated s _ H eq_refl).
Qed.

Lemma run_subscription CONFIG l : forall s,
  singleSubscription s -> singleSubscription (run CONFIG l s).
Proof.
  induction l as [|[w e] l IH]; intros s H; [exact H|].
  rewrite run_cons. apply IH, step_subscription, H.
Qed.

Lemma clicks_session CONFIG w e s :
  match e with
  | CountdownTick | ClickSubmitBid _ _ | ClickRegister | ClickSubmitName _ =>
      session (step CONFIG w e s) = session s
  | _ => True
  end.
Proof.
  destruct e; try exact I; simpl;
    unfold countdownTick, updateTimer, onSubmitBid, afterWrite, handleRegister,
      onSubmitName, updateWalletDisplay;
    cases; reflexivity.
Qed.

Lemma relistened_onlyFirst e h s x :
  onlyFirstContract s ->
  contract x = contract (session s) ->
  listeners x = relistened e h (session s) ->
  contract x = 0%nat /\ forall c e', c <> 0%nat -> listeners x c e' = [].
Proof.
  intros [H0 H] Ec El. split; [congruence|].
  intros c e' Hc. rewrite El, relistened_at, H0.
  destruct (Nat.eqb_spec c 0); [contradiction|]. simpl. apply H, Hc.
Qed.

Lemma initializeAuctionData_onlyFirst ch now s :
  onlyFirstContract s -> onlyFirstContract (initializeAuctionData ch now s).
Proof.
  intros H.
  destruct (initializeAuctionData_frame ch now s) as [_ [_ [Ec [E | E]]]].
  - destruct H as [H0 H]. split; [congruence|].
    intros c e Hc. rewrite E. apply H, Hc.
  - exact (relistened_onlyFirst NewBid onNewBid s _ H Ec E).
Qed.

Lemma onlyFirst_session s s' :
  session s' = session s -> onlyFirstContract s -> onlyFirstContract s'.
Proof. unfold onlyFirstContract. intros ->. trivial. Qed.

Lemma step_onlyFirst CONFIG w e s :
  keepsContract e = true ->
  onlyFirstContract s -> onlyFirstContract (step CONFIG w e s).
Proof.
  intros Hk H. pose proof (clicks_session CONFIG w e s) as Hs.
  destruct e; try discriminate;
    try (apply (onlyFirst_session s); [exact Hs | exact H]); simpl.
  - unfold load, initializeApp, startPeriodicUpdates.
    do 3 apply initializeAuctionData_onlyFirst. exact H.
  - unfold periodicTick.
    destruct (now w - lastUpdate (cache s) >? CACHE_DURATION CONFIG);
      [apply initializeAuctionData_onlyFirst|]; exact H.
  - apply (onlyFirst_session s); [apply deliver_session | exact H].
  - exact (relistened_onlyFirst DataUpdated onDataUpdated s
             (session (setupEventListener s)) H eq_refl eq_refl).
  - apply (onlyFirst_session s); [apply batchResolved_besides | exact H].
  - apply (onlyFirst_session s); [apply batchRejected_besides | exact H].
  - apply (onlyFirst_session s); [apply pauseElapsed_besides | exact H].
Qed.

Lemma run_onlyFirst CONFIG l : forall s,
  Forall (fun we => keepsContract (snd we) = true) l ->
  onlyFirstContract s -> onlyFirstContract (run CONFIG l s).
Proof.
  induction l as [|[w e] l IH]; intros s Hl H; [exact H|].
  inversion Hl as [|x y Hk Hl']; subst. rewrite run_cons.
  apply IH; [exact Hl'|]. apply step_onlyFirst; [exact Hk | exact H].
Qed.

Lemma deliver_once CONFIG ch c ev s :
  singleSubscription s ->
  deliver CONFIG ch c ev s = s
  \/ exists h, deliver CONFIG ch c ev s = invoke CONFIG ch h ev s.
Proof.
  intros H. unfold deliver. specialize (H c (eventName ev)).
  destruct (listeners (session s) c (eventName ev)) as [|h [|h' t]].
  - left. reflexivity.
  - right. exists h. reflexivity.
  - simpl in H. lia.
Qed.

(** C10 (counterexample).  The page is loaded, alice connects her wallet
    and the periodic callback fires.  [connectWallet] has replaced
    [contract] by a new object without removing the listeners of the
    first one, and the re-initialization has subscribed the new object:
    two objects listen for [NewBid], and one bid on the chain runs the
    handler twice (two reads of the bidder's name). *)
Lemma replaced_contract_keeps_listener :
  contract (session Reconnect.state) = 1%nat
  /\ listeners (session Reconnect.state) 0%nat NewBid = [onNewBid]
  /\ listeners (session Reconnect.state) 1%nat NewBid = [onNewBid]
  /\ filter isChainCall (since Reconnect.state Reconnect.delivered)
     = [ChainCall 1%nat (CallAddressToName Scenario.bob);
        ChainCall 1%nat (CallAddressToName Scenario.bob)].
Proof.
  repeat split; vm_compute; reflexivity.
Qed.

(** C10 (amended).  Each [contract.on(e, ...)] of app.js comes right after
    [contract.removeAllListeners(e)] on the same contract object, which is
    left with exactly that one listener for [e].  So after any sequence of
    events, with initialization and re-initialization run any number of
    times, no contract object holds more than one listener for an event,
    and an event it emits calls at most one handler, once.  As long as
    [contract] is not replaced (no wallet event), that object is the only
    one holding listeners at all. *)
Theorem single_subscription CONFIG l :
  singleSubscription (run CONFIG l initialApp)
  /\ (forall ch c ev,
        deliver CONFIG ch c ev (run CONFIG l initialApp) = run CONFIG l initialApp
        \/ exists h, deliver CONFIG ch c ev (run CONFIG l initialApp)
                     = invoke CONFIG ch h ev (run CONFIG l initialApp))
  /\ (forall s,
        listeners (session (listenNewBid s)) (contract (session s)) NewBid
        = [onNewBid]
        /\ listeners (session (setupEventListener s)) (contract (session s))
             DataUpdated
           = [onDataUpdated])
  /\ (Forall (fun we => keepsContract (snd we) = true) l ->
      onlyFirstContract (run CONFIG l initialApp)).
Proof.
  assert (H : singleSubscription (run CONFIG l initialApp)).
  { apply run_subscription. intros c e. simpl. lia. }
  split; [exact H|]. split; [intros ch c ev; apply deliver_once, H|]. split.
  - intros s. unfold listenNewBid, setupEventListener. simpl.
    rewrite Nat.eqb_refl. simpl. split; reflexivity.
  - intros Hl. apply run_onlyFirst; [exact Hl|].
    split; [reflexivity | intros c e _; reflexivity].
Qed.

Lemma single_subscription_witness :
  singleSubscription (run Scenario.config Reinit.events initialApp)
  /\ onlyFirstContract (run Scenario.config Reinit.events initialApp).
Proof.
  destruct (single_subscription Scenario.config Reinit.events) as [A [_ [_ B]]].
  split; [exact A|]. apply B.
  repeat constructor.
Defined.

(** ** Countdown *)

Lemma toNumber_some e n : toNumber e = Some n -> n = e.
Proof. unfold toNumber. destruct (Z.abs e <? 2 ^ 53); congruence. Qed.

Lemma remainingAt_later e t now : t <= now -> remainingAt e now <= remainingAt e t.
Proof.
  intros H. unfold remainingAt.
  assert (t / 1000 <= now / 1000) by (apply Z.div_le_mono; lia). lia.
Qed.

(** A tick past the deadline shows the end, or throws. *)
Lemma updateTimer_ended e now s :
  endTimeValue (auction s) = Some e -> remainingAt e now <= 0 ->
  updateTimer now s = None
  \/ updateTimer now s = Some (withPage (setTimer AuctionEnded true) s).
Proof.
  intros He Hr. unfold updateTimer. rewrite He.
  destruct (toNumber e) as [n|] eqn:En; [|left; reflexivity].
  apply toNumber_some in En. subst n.
  destruct (remainingAt e now <=? 0) eqn:E; [right; reflexivity|].
  apply Z.leb_gt in E. lia.
Qed.

Lemma countdownTick_ended e now s :
  endedAt e s -> remainingAt e now <= 0 -> endedAt e (countdownTick now s).
Proof.
  intros [He Hs] Hr. unfold countdownTick.
  destruct (countdowns s); [split; assumption|].
  destruct (updateTimer_ended e now s He Hr) as [-> | ->];
    [split; assumption|].
  split; [exact He | split; reflexivity].
Qed.

Lemma initializeAuctionData_ended ch e now s :
  endedAt e s ->
  ch_endTime ch = Some e \/ ch_endTime ch = None ->
  remainingAt e now <= 0 ->
  endedAt e (initializeAuctionData ch now s).
Proof.
  intros [He [Ht Hd]] Hch Hr.
  unfold initializeAuctionData.
  destruct Hch as [-> | ->]; [|repeat split; assumption].
  unfold startTimer.
  destruct (updateTimer_ended e now (withAuction (setEndTime e) (call CallEndTime s))
              eq_refl Hr) as [-> | ->];
    [repeat split; assumption|].
  match goal with
  | |- context [scan ch ?s0] => destruct (scan_frame ch s0) as [k [l ->]]
  end.
  unfold fetchLatest, endedAt, ended.
  cbn [call emit session cache auction page submitBid submitName countdowns
       drains log withPage withCountdowns withAuction].
  cases; repeat split; reflexivity.
Qed.

Lemma handleNewBid_timerView ch bidder a text bidIndex s :
  timerView (handleNewBid ch bidder a text bidIndex s) = timerView s.
Proof. unfold handleNewBid. cases; reflexivity. Qed.

Lemma besidesQueue_timerView s s' : besidesQueue s s' -> timerView s' = timerView s.
Proof. intros [_ [Ha [Hp _]]]. unfold timerView. rewrite Ha, Hp. reflexivity. Qed.

Lemma invoke_timerView CONFIG ch h ev s :
  timerView (invoke CONFIG ch h ev s) = timerView s.
Proof.
  destruct h, ev as [bidder a text bidIndex hash | id hash]; simpl;
    try reflexivity.
  - apply handleNewBid_timerView.
  - apply besidesQueue_timerView, handleDataUpdated_besides.
Qed.

(** Only the countdown and the (re-)initializations write what the
    countdown shows. *)
Lemma step_timerView CONFIG w e s :
  match e with
  | PageLoad | PeriodicTick | CountdownTick => True
  | _ => timerView (step CONFIG w e s) = timerView s
  end.
Proof.
  destruct e; try exact I; simpl;
    try (apply besidesQueue_timerView;
         first [apply batchResolved_besides | apply batchRejected_besides
               | apply pauseElapsed_besides]);
    try reflexivity.
  - apply (deliver_keeps (fun s' => timerView s' = timerView s)); [|reflexivity].
    intros h s0 <-. apply invoke_timerView.
  - unfold clickWallet, disconnectWallet, connectWallet, checkAndSwitchNetwork, updateWalletDisplay.
    cases; reflexivity.
  - unfold handleAccountsChanged, disconnectWallet, connectWallet,
      checkAndSwitchNetwork, updateWalletDisplay.
    cases; reflexivity.
  - unfold contribute, openBidModal, connectWallet, checkAndSwitchNetwork,
      updateWalletDisplay.
    cases; reflexivity.
  - unfold onSubmitBid, afterWrite. cases; reflexivity.
  - unfold handleRegister. cases; reflexivity.
  - unfold onSubmitName, updateWalletDisplay. cases; reflexivity.
Qed.

Lemma endedAt_timerView e s s' :
  timerView s' = timerView s -> endedAt e s -> endedAt e s'.
Proof.
  unfold timerView, endedAt, ended. intros E [He [Ht Hd]].
  injection E as -> -> ->. auto.
Qed.

Lemma step_ended CONFIG e w ev s :
  endedAt e s ->
  ch_endTime (chain w) = Some e \/ ch_endTime (chain w) = None ->
  remainingAt e (now w) <= 0 ->
  endedAt e (step CONFIG w ev s).
Proof.
  intros H Hch Hr. pose proof (step_timerView CONFIG w ev s) as Hv.
  destruct ev; try (apply (endedAt_timerView e s); [exact Hv | exact H]); simpl.
  - unfold load, initializeApp, startPeriodicUpdates.
    do 3 (apply initializeAuctionData_ended; [|exact Hch | exact Hr]). exact H.
  - unfold periodicTick.
    destruct (now w - lastUpdate (cache s) >? CACHE_DURATION CONFIG);
      [apply initializeAuctionData_ended|]; assumption.
  - apply countdownTick_ended; assumption.
Qed.

Lemma run_ended CONFIG e t l : forall s,
  remainingAt e t <= 0 -> sameDeadline e t l ->
  endedAt e s -> endedAt e (run CONFIG l s).
Proof.
  induction l as [|[w ev] l IH]; intros s Hr Hl H; [exact H|].
  inversion Hl as [|x y [Hch Ht] Hl']; subst. rewrite run_cons.
  apply IH; [exact Hr | exact Hl'|].
  apply step_ended; [exact H | exact Hch|].
  pose proof (remainingAt_later e t (now w) Ht). simpl in *. lia.
Qed.

(** C7 (counterexample).  Alice opened the bid modal before the deadline.
    The tick on the deadline shows the end and disables the contribute
    button; her click on the submit button of the modal a second later
    still calls [contribute], with the whole total as value. *)
Lemma bid_submitted_after_end :
  submitBid Scenario.aliceAfterThree = Some 0
  /\ remainingAt 2000000000 (now (Deadline.later 0)) <= 0
  /\ ended LateBid.atEnd
  /\ chainWrites (since LateBid.atEnd LateBid.click)
     = [ChainCall 1%nat (CallContribute [] 3500000000000000)].
Proof.
  split; [reflexivity|]. split; [vm_compute; discriminate|].
  split; [split; reflexivity|]. vm_compute. reflexivity.
Qed.

(** C7 (amended).  With the deadline fixed at [e], let a tick at time [t]
    compute [remaining <= 0]: it shows "AUCTION ENDED" and disables the
    contribute button.  After any sequence of events that follows, in
    which the clock is not before [t] and the deadline read from the
    chain is still [e], the page still shows the end and the button is
    still disabled: no later tick shows a running clock.  The tick does
    not touch the submit handler of the bid modal, which has no test of
    the deadline: installed before the end, it still sends [contribute]. *)
Theorem countdown_terminal CONFIG e t s s1 l :
  endTimeValue (auction s) = Some e ->
  updateTimer t s = Some s1 ->
  remainingAt e t <= 0 ->
  sameDeadline e t l ->
  ended s1 /\ ended (run CONFIG l s1)
  /\ submitBid s1 = submitBid s
  /\ (forall ch P T message,
        submitBid s = Some P ->
        Js.length message <= 256 ->
        chainWrites (since s1 (onSubmitBid ch (Some T) message s1))
        = [ChainCall (contract (session s1)) (CallContribute message (T - P))]).
Proof.
  intros He Hu Hr Hl.
  assert (Hs : s1 = withPage (setTimer AuctionEnded true) s).
  { destruct (updateTimer_ended e t s He Hr) as [E | E]; rewrite E in Hu;
      [discriminate|].
    injection Hu as <-. reflexivity. }
  assert (H1 : endedAt e s1).
  { subst s1. split; [exact He | split; reflexivity]. }
  split; [apply H1|].
  split; [apply (run_ended CONFIG e t l s1 Hr Hl H1)|].
  split; [subst s1; reflexivity|].
  intros ch P T message HP Hm.
  assert (HP1 : submitBid s1 = Some P) by (subst s1; exact HP).
  destruct (onSubmitBid_sends ch s1 P T message HP1 Hm) as [r [-> Hw]].
  simpl. rewrite Hw. reflexivity.
Qed.

Lemma countdown_terminal_witness :
  ended (withPage (setTimer AuctionEnded true) Scenario.aliceAfterThree)
  /\ chainWrites
       (since (withPage (setTimer AuctionEnded true) Scenario.aliceAfterThree)
          (onSubmitBid (Scenario.chainWith Scenario.threeBids 0)
             (Some 3500000000000000) []
             (withPage (setTimer AuctionEnded true) Scenario.aliceAfterThree)))
     = [ChainCall
          (contract (session (withPage (setTimer AuctionEnded true)
                                Scenario.aliceAfterThree)))
          (CallContribute [] (3500000000000000 - 0))].
Proof.
  destruct (countdown_terminal Scenario.config 2000000000 Deadline.atDeadline
              Scenario.aliceAfterThree
              (withPage (setTimer AuctionEnded true) Scenario.aliceAfterThree)
              Deadline.after) as [A [_ [_ B]]].
  - reflexivity.
  - reflexivity.
  - vm_compute. discriminate.
  - repeat constructor; vm_compute; discriminate.
  - split; [exact A|].
    apply (B (Scenario.chainWith Scenario.threeBids 0) 0 3500000000000000 []).
    + reflexivity.
    + vm_compute. discriminate.
Defined.

(** * Further properties of app.js *)

(** ** Trimming *)

Lemma trimStart_clean s c r : Js.trimStart s = c :: r -> Js.isWhiteSpace c = false.
Proof.
  induction s as [|d s IH]; simpl; [discriminate|].
  destruct (Js.isWhiteSpace d) eqn:E; [exact IH|].
  intros H. injection H as <- _. exact E.
Qed.

Lemma trimStart_fixed c r : Js.isWhiteSpace c = false -> Js.trimStart (c :: r) = c :: r.
Proof. intros E. simpl. rewrite E. reflexivity. Qed.

Lemma trimStart_twice s : Js.trimStart (Js.trimStart s) = Js.trimStart s.
Proof.
  destruct (Js.trimStart s) as [|c r] eqn:E; [reflexivity|].
  apply trimStart_fixed, (trimStart_clean s c r E).
Qed.

(** Trimming the start keeps a last unit that is not white space. *)
Lemma trimStart_keeps_last s c :
  Js.isWhiteSpace c = false -> exists r, Js.trimStart (s ++ [c]) = r ++ [c].
Proof.
  intros E. induction s as [|d s IH]; simpl.
  - rewrite E. exists []. reflexivity.
  - destruct (Js.isWhiteSpace d); [exact IH|].
    exists (d :: s). reflexivity.
Qed.

(** Trimming the end keeps a first unit that is not white space. *)
Lemma trimEnd_keeps_first c r :
  Js.isWhiteSpace c = false -> exists t, Js.trimEnd (c :: r) = c :: t.
Proof.
  intros E. unfold Js.trimEnd. simpl.
  destruct (trimStart_keeps_last (rev r) c E) as [u ->].
  rewrite rev_app_distr. simpl. exists (rev u). reflexivity.
Qed.

Lemma trimEnd_twice s : Js.trimEnd (Js.trimEnd s) = Js.trimEnd s.
Proof. unfold Js.trimEnd. rewrite rev_involutive, trimStart_twice. reflexivity. Qed.

Lemma trim_twice s : Js.trim (Js.trim s) = Js.trim s.
Proof.
  unfold Js.trim. destruct (Js.trimStart s) as [|c r] eqn:E; [reflexivity|].
  pose proof (trimStart_clean s c r E) as Hc.
  destruct (trimEnd_keeps_first c r Hc) as [t Ht].
  rewrite Ht, (trimStart_fixed c t Hc), <- Ht. apply trimEnd_twice.
Qed.

Lemma trim_first s c r : Js.trim s = c :: r -> Js.isWhiteSpace c = false.
Proof.
  unfold Js.trim. destruct (Js.trimStart s) as [|d t] eqn:E; [discriminate|].
  pose proof (trimStart_clean s d t E) as Hd.
  destruct (trimEnd_keeps_first d t Hd) as [u ->].
  intros H. injection H as <- _. exact Hd.
Qed.

Lemma trim_last s r c : Js.trim s = r ++ [c] -> Js.isWhiteSpace c = false.
Proof.
  unfold Js.trim, Js.trimEnd. intros H.
  assert (E : Js.trimStart (rev (Js.trimStart s)) = c :: rev r).
  { rewrite <- (rev_involutive (Js.trimStart (rev (Js.trimStart s)))), H.
    rewrite rev_app_distr. reflexivity. }
  exact (trimStart_clean _ _ _ E).
Qed.

(** ** Submissions, continued *)

(** Closes a goal [exists l, log s' = log s ++ l /\ P l] whose state is
    a chain of log entries on [s]. *)
Ltac added :=
  first [ exists []; split; [symmetry; apply app_nil_r | reflexivity]
        | eexists; split;
          [cbn; rewrite <- ?app_assoc; reflexivity | reflexivity] ].

Lemma onSubmitName_sends ch value s c n :
  submitName s = true -> Js.trim value = c :: n -> Js.length (c :: n) <= 32 ->
  exists l,
    log (onSubmitName ch value s)
    = log s ++ ChainCall (contract (session s)) (CallRegister (c :: n)) :: l
    /\ chainWrites l = [].
Proof.
  intros Hi Ht Hl. unfold onSubmitName, updateWalletDisplay. rewrite Hi, Ht.
  destruct (Js.length (c :: n) >? 32) eqn:E; [apply Z.gtb_lt in E; lia|].
  cases; eexists; (split; [cbn; rewrite <- ?app_assoc; reflexivity | reflexivity]).
Qed.

(** X1.  The name that reaches [register] is the trimmed input: between 1 and
    32 units long, unchanged by another trim, without white space at
    either end.  Any other input reaches no chain write at all. *)
Theorem register_sends_trimmed_name ch value s :
  chainWrites (since s (onSubmitName ch value s)) = []
  \/ (chainWrites (since s (onSubmitName ch value s))
      = [ChainCall (contract (session s)) (CallRegister (Js.trim value))]
      /\ 1 <= Js.length (Js.trim value) <= 32
      /\ Js.trim (Js.trim value) = Js.trim value
      /\ match Js.trim value with
         | c :: _ => Js.isWhiteSpace c = false
         | [] => True
         end
      /\ match rev (Js.trim value) with
         | c :: _ => Js.isWhiteSpace c = false
         | [] => True
         end).
Proof.
  destruct (submitName s) eqn:Hi.
  2:{ left. unfold onSubmitName. rewrite Hi. unfold since.
      rewrite skipn_all. reflexivity. }
  destruct (Js.trim value) as [|c n] eqn:Ht.
  { left. unfold onSubmitName. rewrite Hi, Ht.
    erewrite since_app by reflexivity. reflexivity. }
  destruct (Js.length (c :: n) >? 32) eqn:E.
  { left. unfold onSubmitName. rewrite Hi, Ht, E.
    erewrite since_app by reflexivity. reflexivity. }
  right. assert (Hl : Js.length (c :: n) <= 32).
  { destruct (Z.gtb_spec (Js.length (c :: n)) 32); [discriminate | lia]. }
  destruct (onSubmitName_sends ch value s c n Hi Ht Hl) as [l [Hlog Hw]].
  split; [rewrite (since_app s _ _ Hlog); simpl; rewrite Hw; reflexivity|].
  split; [unfold Js.length in *; simpl in *; lia|].
  split; [rewrite <- Ht; apply trim_twice|].
  split; [exact (trim_first value c n Ht)|].
  destruct (rev (c :: n)) as [|d r] eqn:Er; [exact I|].
  apply (trim_last value (rev r) d).
  rewrite Ht, <- (rev_involutive (c :: n)), Er. reflexivity.
Qed.

(** X2.  A submission, of a bid or of a name, changes nothing of the auction
    state, the cache, the session, the timers or the installed submit
    handlers, whatever the chain answers.  Of the page elements that
    [Page] holds, the winner, the minimum next bid, the winner's message,
    the countdown text, the contribute button and the preset amount stay
    as they were; so do the two modal flags, unless a transaction was
    sent and is waited for, and then only the modal of the submission is
    closed.  The page is written outside [Page] as well: unless the click
    does nothing at all, the status banner is set (the [ShowStatus]
    entries of the log), and a successful registration redraws the wallet
    panel, which this statement does not describe. *)
Theorem submission_effects ch x s :
  auction (submit ch x s) = auction s
  /\ cache (submit ch x s) = cache s
  /\ session (submit ch x s) = session s
  /\ countdowns (submit ch x s) = countdowns s
  /\ submitBid (submit ch x s) = submitBid s
  /\ submitName (submit ch x s) = submitName s
  /\ currentWinner (page (submit ch x s)) = currentWinner (page s)
  /\ minNextBid (page (submit ch x s)) = minNextBid (page s)
  /\ winnerMessage (page (submit ch x s)) = winnerMessage (page s)
  /\ auctionTimer (page (submit ch x s)) = auctionTimer (page s)
  /\ contributeDisabled (page (submit ch x s)) = contributeDisabled (page s)
  /\ bidInput (page (submit ch x s)) = bidInput (page s)
  /\ ((bidModalOpen (page (submit ch x s)) = bidModalOpen (page s)
       /\ registerModalOpen (page (submit ch x s)) = registerModalOpen (page s))
      \/ (In TxWait (since s (submit ch x s))
          /\ match x with
             | SubmitBid _ _ =>
                 bidModalOpen (page (submit ch x s)) = false
                 /\ registerModalOpen (page (submit ch x s))
                    = registerModalOpen (page s)
             | SubmitName _ =>
                 registerModalOpen (page (submit ch x s)) = false
                 /\ bidModalOpen (page (submit ch x s)) = bidModalOpen (page s)
             end))
  /\ (submit ch x s = s
      \/ exists message type,
           In (ShowStatus message type) (since s (submit ch x s))).
Proof.
  destruct x as [T message | value]; unfold submit, onSubmitBid, onSubmitName,
    afterWrite, updateWalletDisplay;
    cases; repeat split; try reflexivity; try (simpl; congruence);
    lazymatch goal with
    | |- (_ /\ _) \/ _ =>
        first [ left; split; reflexivity
              | right; (split; [|split; reflexivity]);
                (erewrite since_app by (cbn; rewrite <- ?app_assoc; reflexivity));
                simpl; tauto ]
    | |- _ \/ (exists _, _) =>
        first [ left; reflexivity
              | right; do 2 eexists;
                (erewrite since_app by (cbn; rewrite <- ?app_assoc; reflexivity));
                simpl; eauto 10 ]
    end.
Qed.

(** ** Wallet *)

(** X3.  When the network check fails, [connectWallet] answers [false] but
    has already assigned [userAddress]; [contract] is still the object
    without signer.  From then on the wallet button disconnects instead
    of connecting, and [contribute] goes on to the bid modal without
    asking the wallet again. *)
Theorem failed_switch_leaves_address CONFIG ch c t n s :
  networkFails n ->
  fst (connectWallet CONFIG ch (Accounts (c :: t) n) s) = false
  /\ userAddress (session (snd (connectWallet CONFIG ch (Accounts (c :: t) n) s)))
     = Some (c :: t)
  /\ contract (session (snd (connectWallet CONFIG ch (Accounts (c :: t) n) s)))
     = contract (session s)
  /\ (forall w, clickWallet CONFIG ch w
                  (snd (connectWallet CONFIG ch (Accounts (c :: t) n) s))
                = disconnectWallet ch
                    (snd (connectWallet CONFIG ch (Accounts (c :: t) n) s)))
  /\ (forall w, contribute CONFIG w ch
                  (snd (connectWallet CONFIG ch (Accounts (c :: t) n) s))
                = openBidModal ch (c :: t)
                    (snd (connectWallet CONFIG ch (Accounts (c :: t) n) s))).
Proof.
  intros Hn. destruct n as [|[m|]|m]; try contradiction;
    repeat split; reflexivity.
Qed.

Lemma failed_switch_leaves_address_witness :
  fst (connectWallet Scenario.config (Scenario.chainWith [] 0) wrongNetwork
         initialApp) = false
  /\ userAddress (session (snd (connectWallet Scenario.config
                                  (Scenario.chainWith [] 0) wrongNetwork initialApp)))
     = Some Scenario.alice.
Proof.
  destruct (failed_switch_leaves_address Scenario.config (Scenario.chainWith [] 0)
              48%N (tl Scenario.alice)
              (SwitchAsked (Some (Js.lit "user rejected the request")))
              initialApp I) as [A [B _]].
  split; [exact A | exact B].
Defined.

(** X4.  [contribute] either leaves the submit handler, the bid modal and
    its preset amount as they were (the wallet did not connect, or the
    caller's [fullBids] could not be read; a status or the wallet panel
    may have been written by then, which this statement does not
    describe), or it opens the bid modal with the input preset to the
    next minimum bid and installs a handler that holds the [fullBids] of
    the address now connected. *)
Theorem contribute_opens_modal CONFIG w ch s :
  (submitBid (contribute CONFIG w ch s) = submitBid s
   /\ bidModalOpen (page (contribute CONFIG w ch s)) = bidModalOpen (page s)
   /\ bidInput (page (contribute CONFIG w ch s)) = bidInput (page s))
  \/ (exists u P,
        userAddress (session (contribute CONFIG w ch s)) = Some u
        /\ ch_fullBids ch u = Some P
        /\ submitBid (contribute CONFIG w ch s) = Some P
        /\ bidModalOpen (page (contribute CONFIG w ch s)) = true
        /\ bidInput (page (contribute CONFIG w ch s))
           = Some (nextMinBid (currentBid (auction s)))).
Proof.
  unfold contribute, connectWallet, checkAndSwitchNetwork, openBidModal,
    updateWalletDisplay.
  cases; try (left; repeat split; reflexivity);
    right; cbn in *;
    match goal with
    | H : ch_fullBids ch ?u = Some ?P |- _ => exists u, P
    end; repeat split; assumption.
Qed.

(** X5.  The wallet button and an account notification leave the submit
    handler of the bid modal installed, with the [fullBids] amount it
    captured when the modal was opened.  A click on submit afterwards
    still calls [contribute], on the contract object now in use, with
    the value computed from that captured amount. *)
Theorem submit_handler_outlives_wallet CONFIG w e ch s P T message :
  isWalletEvent e = true ->
  submitBid s = Some P ->
  Js.length message <= 256 ->
  submitBid (step CONFIG w e s) = Some P
  /\ chainWrites (since (step CONFIG w e s)
                    (onSubmitBid ch (Some T) message (step CONFIG w e s)))
     = [ChainCall (contract (session (step CONFIG w e s)))
          (CallContribute message (T - P))].
Proof.
  intros He HP Hm.
  assert (H : submitBid (step CONFIG w e s) = Some P).
  { rewrite <- HP. destruct e; try discriminate; simpl;
      unfold clickWallet, handleAccountsChanged, disconnectWallet, connectWallet,
        checkAndSwitchNetwork, updateWalletDisplay;
      cases; reflexivity. }
  split; [exact H|].
  destruct (onSubmitBid_sends ch (step CONFIG w e s) P T message H Hm)
    as [l [-> Hl]].
  simpl. rewrite Hl. reflexivity.
Qed.

Lemma submit_handler_outlives_wallet_witness :
  submitBid accountSwitched = Some 0
  /\ chainWrites (since accountSwitched
                    (onSubmitBid (Scenario.chainWith Scenario.threeBids 0)
                       (Some 3500000000000000) [] accountSwitched))
     = [ChainCall (contract (session accountSwitched))
          (CallContribute [] (3500000000000000 - 0))].
Proof.
  apply (submit_handler_outlives_wallet Scenario.config
           (Scenario.world (Scenario.chainWith Scenario.threeBids 0))
           (AccountsChanged [Scenario.bob] (Accounts Scenario.bob OnNetwork))
           (Scenario.chainWith Scenario.threeBids 0)
           Scenario.aliceAfterThree 0 3500000000000000 []).
  - reflexivity.
  - reflexivity.
  - vm_compute. discriminate.
Defined.

(** ** Contract objects *)

Lemma initializeAuctionData_session ch now s :
  session (initializeAuctionData ch now s) = session s
  \/ session (initializeAuctionData ch now s)
     = on NewBid onNewBid (removeAllListeners NewBid (session s)).
Proof.
  unfold initializeAuctionData, startTimer, updateTimer.
  destruct (ch_endTime ch) as [e|]; [|left; reflexivity].
  cbn [endTimeValue auction withAuction setEndTime call emit].
  destruct (toNumber e) as [e'|]; [|left; reflexivity].
  destruct (remainingAt e' now <=? 0);
    match goal with
    | |- context [scan ch ?s0] =>
        destruct (scan_frame ch s0) as [k [l ->]]
    end;
    unfold fetchLatest; cbn [call emit session cache auction page submitBid
      submitName countdowns drains log withPage withCountdowns withAuction];
    cases; right; reflexivity.
Qed.

Lemma clicks_contract CONFIG w e s :
  isClick e = true ->
  contractKeptOrReplaced (session s) (session (step CONFIG w e s)).
Proof.
  destruct e; try discriminate; intros _; simpl;
    unfold countdownTick, updateTimer, clickWallet, handleAccountsChanged,
      contribute, openBidModal, onSubmitBid, afterWrite, handleRegister,
      onSubmitName, disconnectWallet, connectWallet, checkAndSwitchNetwork,
      updateWalletDisplay;
    cases; (split; [reflexivity|]);
    first [left; split; reflexivity | right; split; reflexivity].
Qed.

Lemma freshClean_session s s' :
  session s' = session s -> freshClean s -> freshClean s'.
Proof. unfold freshClean. intros ->. trivial. Qed.

Lemma freshClean_relisten e h s s' :
  session s' = on e h (removeAllListeners e (session s)) ->
  freshClean s -> freshClean s'.
Proof.
  unfold freshClean. intros -> [Hc Hl]. simpl. split; [exact Hc|].
  intros c e' Hf. destruct (Nat.eqb_spec c (contract (session s))); [lia|].
  simpl. apply Hl, Hf.
Qed.

Lemma freshClean_replaced s s' :
  contractKeptOrReplaced (session s) (session s') ->
  freshClean s -> freshClean s'.
Proof.
  unfold freshClean. intros [Hl [[Hc Hf] | [Hc Hf]]] [H1 H2];
    rewrite Hl, Hc, Hf.
  - split; assumption.
  - split; [lia|]. intros c e Hle. apply H2. lia.
Qed.

Lemma initializeAuctionData_freshClean ch now s :
  freshClean s -> freshClean (initializeAuctionData ch now s).
Proof.
  intros H. destruct (initializeAuctionData_session ch now s) as [E | E].
  - exact (freshClean_session s _ E H).
  - exact (freshClean_relisten NewBid onNewBid s _ E H).
Qed.

Lemma step_freshClean CONFIG w e s :
  freshClean s -> freshClean (step CONFIG w e s).
Proof.
  intros H. destruct (isClick e) eqn:Hk;
    [exact (freshClean_replaced s _ (clicks_contract CONFIG w e s Hk) H)|].
  destruct e; try discriminate; simpl.
  - unfold load, initializeApp, startPeriodicUpdates.
    do 3 apply initializeAuctionData_freshClean. exact H.
  - unfold periodicTick.
    destruct (now w - lastUpdate (cache s) >? CACHE_DURATION CONFIG);
      [apply initializeAuctionData_freshClean|]; exact H.
  - apply (freshClean_session s); [apply deliver_session | exact H].
  - exact (freshClean_relisten DataUpdated onDataUpdated s
             (setupEventListener s) eq_refl H).
  - apply (freshClean_session s); [apply batchResolved_besides | exact H].
  - apply (freshClean_session s); [apply batchRejected_besides | exact H].
  - apply (freshClean_session s); [apply pauseElapsed_besides | exact H].
Qed.

Lemma reachable_freshClean CONFIG s : reachable CONFIG s -> freshClean s.
Proof.
  induction 1 as [|w e s _ IH]; [|apply step_freshClean, IH].
  split; [simpl; lia | intros c e _; reflexivity].
Qed.

(** X6.  Connecting or disconnecting the wallet puts a new contract object
    in [contract].  That object holds no listener: an event it emits
    reaches no handler until [initializeAuctionData] has run again.  The
    object that was in use keeps the listeners it had. *)
Theorem new_contract_has_no_listener CONFIG ch w s :
  reachable CONFIG s ->
  (fst (connectWallet CONFIG ch w s) = true ->
   contract (session (snd (connectWallet CONFIG ch w s))) <> contract (session s)
   /\ (forall e, listeners (session (snd (connectWallet CONFIG ch w s)))
                   (contract (session (snd (connectWallet CONFIG ch w s)))) e = [])
   /\ listeners (session (snd (connectWallet CONFIG ch w s))) = listeners (session s)
   /\ (forall ch' ev,
         deliver CONFIG ch'
           (contract (session (snd (connectWallet CONFIG ch w s)))) ev
           (snd (connectWallet CONFIG ch w s))
         = snd (connectWallet CONFIG ch w s)))
  /\ contract (session (disconnectWallet ch s)) <> contract (session s)
  /\ (forall e, listeners (session (disconnectWallet ch s))
                  (contract (session (disconnectWallet ch s))) e = [])
  /\ listeners (session (disconnectWallet ch s)) = listeners (session s)
  /\ (forall ch' ev,
        deliver CONFIG ch' (contract (session (disconnectWallet ch s))) ev
          (disconnectWallet ch s)
        = disconnectWallet ch s).
Proof.
  intros Hr. destruct (reachable_freshClean CONFIG s Hr) as [Hc Hf].
  assert (Hnew : forall s',
            contract (session s') = freshId (session s) ->
            listeners (session s') = listeners (session s) ->
            contract (session s') <> contract (session s)
            /\ (forall e, listeners (session s') (contract (session s')) e = [])
            /\ listeners (session s') = listeners (session s)
            /\ (forall ch' ev,
                  deliver CONFIG ch' (contract (session s')) ev s' = s')).
  { intros s' E El. split; [lia|].
    assert (H0 : forall e, listeners (session s') (contract (session s')) e = [])
      by (intros e; rewrite El, E; apply Hf; lia).
    split; [exact H0|]. split; [exact El|].
    intros ch' ev. unfold deliver. rewrite H0. reflexivity. }
  split.
  - intros Hok. apply Hnew;
      unfold connectWallet, checkAndSwitchNetwork, updateWalletDisplay in *;
      destruct w as [|m|a [|[m|]|m]]; try discriminate; cases; reflexivity.
  - apply Hnew; unfold disconnectWallet, updateWalletDisplay; cases; reflexivity.
Qed.

Lemma new_contract_has_no_listener_witness :
  contract (session (disconnectWallet (Scenario.chainWith [] 0) Deadline.before))
  <> contract (session Deadline.before)
  /\ listeners (session (disconnectWallet (Scenario.chainWith [] 0) Deadline.before))
       (contract (session (disconnectWallet (Scenario.chainWith [] 0)
                             Deadline.before))) NewBid = [].
Proof.
  destruct (new_contract_has_no_listener Scenario.config (Scenario.chainWith [] 0)
              NoWallet Deadline.before) as [_ [A [B _]]].
  - unfold Deadline.before. apply run_reachable, reachable_initial.
  - split; [exact A | exact (B NewBid)].
Defined.

(** ** Chain writes *)

Lemma readOnly_refl s : readOnly s s.
Proof. exists []. split; [symmetry; apply app_nil_r | reflexivity]. Qed.

Lemma readOnly_trans s1 s2 s3 : readOnly s1 s2 -> readOnly s2 s3 -> readOnly s1 s3.
Proof.
  intros [l1 [E1 W1]] [l2 [E2 W2]]. exists (l1 ++ l2). split.
  - rewrite E2, E1, app_assoc. reflexivity.
  - unfold chainWrites in *. rewrite filter_app, W1, W2. reflexivity.
Qed.

Lemma readOnly_log s s' : log s' = log s -> readOnly s s'.
Proof. intros E. exists []. rewrite E, app_nil_r. split; reflexivity. Qed.

Lemma probe_readOnly ch : forall fuel latestIndex s,
  readOnly s (snd (probe fuel ch latestIndex s)).
Proof.
  induction fuel as [|fuel IH]; intros latestIndex s; simpl;
    [apply readOnly_refl|].
  destruct (readBid ch (latestIndex + 1)).
  - apply (readOnly_trans s (call (CallBidHistory (latestIndex + 1)) s));
      [added | apply IH].
  - added.
Qed.

Lemma fetchLatest_readOnly ch k s : readOnly s (fetchLatest ch k s).
Proof. unfold fetchLatest. cases; added. Qed.

Lemma initializeAuctionData_readOnly ch now s :
  readOnly s (initializeAuctionData ch now s).
Proof.
  unfold initializeAuctionData, startTimer, updateTimer.
  destruct (ch_endTime ch) as [e|]; [|added].
  cbn [endTimeValue auction withAuction setEndTime call emit].
  destruct (toNumber e) as [e'|]; [|added].
  destruct (remainingAt e' now <=? 0);
    match goal with
    | |- context [scan ch ?s0] =>
        apply (readOnly_trans s s0); [added|];
        pose proof (probe_readOnly ch (S (List.length (ch_bidHistory ch))) 0%nat s0)
          as Hp;
        unfold scan; destruct (probe _ ch 0%nat s0) as [k s1]; simpl in Hp;
        apply (readOnly_trans s0 s1); [exact Hp|];
        apply (readOnly_trans s1 (fetchLatest ch k s1));
          [apply fetchLatest_readOnly | apply readOnly_log; reflexivity]
    end.
Qed.

Lemma handleNewBid_readOnly ch bidder a text bidIndex s :
  readOnly s (handleNewBid ch bidder a text bidIndex s).
Proof. unfold handleNewBid. cases; added. Qed.

Lemma processDataQueue_readOnly CONFIG s : readOnly s (processDataQueue CONFIG s).
Proof. unfold processDataQueue, fetchBatch. cases; added. Qed.

Lemma handleDataUpdated_readOnly CONFIG id h s :
  readOnly s (handleDataUpdated CONFIG id h s).
Proof. unfold handleDataUpdated, processDataQueue, fetchBatch. cases; added. Qed.

Lemma invoke_readOnly CONFIG ch h ev s : readOnly s (invoke CONFIG ch h ev s).
Proof.
  destruct h, ev as [bidder a text bidIndex hash | id hash]; simpl;
    try apply readOnly_refl.
  - apply handleNewBid_readOnly.
  - apply handleDataUpdated_readOnly.
Qed.

Lemma step_readOnly CONFIG w e s :
  isSubmit e = false -> readOnly s (step CONFIG w e s).
Proof.
  destruct e; try discriminate; intros _; simpl.
  - unfold load, initializeApp, startPeriodicUpdates.
    eapply readOnly_trans; [|apply initializeAuctionData_readOnly].
    eapply readOnly_trans; apply initializeAuctionData_readOnly.
  - unfold periodicTick. destruct (_ >? _);
      [apply initializeAuctionData_readOnly | apply readOnly_refl].
  - unfold countdownTick, updateTimer. cases; added.
  - apply (deliver_keeps (readOnly s)); [|apply readOnly_refl].
    intros h s0 H. exact (readOnly_trans s s0 _ H (invoke_readOnly _ _ _ _ _)).
  - apply readOnly_log. reflexivity.
  - unfold clickWallet, disconnectWallet, connectWallet, checkAndSwitchNetwork,
      updateWalletDisplay.
    cases; added.
  - unfold handleAccountsChanged, disconnectWallet, connectWallet,
      checkAndSwitchNetwork, updateWalletDisplay.
    cases; added.
  - unfold contribute, openBidModal, connectWallet, checkAndSwitchNetwork,
      updateWalletDisplay.
    cases; added.
  - unfold handleRegister. cases; added.
  - unfold batchResolved, fetchBatch. cases; added.
  - unfold batchRejected, processDataQueue, fetchBatch. cases; added.
  - unfold pauseElapsed, fetchBatch. cases; added.
Qed.

(** X7.  The client sends a transaction only from the two submit handlers:
    over any sequence of other events (page load, periodic refresh,
    contract events, countdown ticks, wallet and modal clicks, the
    queue) the chain writes in the log are what they were. *)
Theorem writes_only_on_submit CONFIG l s :
  Forall (fun we => isSubmit (snd we) = false) l ->
  chainWrites (log (run CONFIG l s)) = chainWrites (log s).
Proof.
  revert s. induction l as [|[w e] l IH]; intros s Hl; [reflexivity|].
  inversion Hl as [|x y He Hl']; subst. rewrite run_cons, (IH _ Hl').
  destruct (step_readOnly CONFIG w e s He) as [a [-> Ha]].
  unfold chainWrites in *. rewrite filter_app, Ha, app_nil_r. reflexivity.
Qed.

Lemma writes_only_on_submit_witness :
  chainWrites (log (run Scenario.config Reinit.events Scenario.aliceAfterThree))
  = chainWrites (log Scenario.aliceAfterThree).
Proof.
  apply (writes_only_on_submit Scenario.config Reinit.events
           Scenario.aliceAfterThree).
  repeat constructor.
Defined.

(** ** Timers *)

Lemma initializeAuctionData_countdowns ch now s :
  countdowns (initializeAuctionData ch now s)
  = match ch_endTime ch with
    | Some e => if Z.abs e <? 2 ^ 53 then S (countdowns s) else countdowns s
    | None => countdowns s
    end.
Proof.
  unfold initializeAuctionData, startTimer, updateTimer.
  destruct (ch_endTime ch) as [e|]; [|reflexivity].
  cbn [endTimeValue auction withAuction setEndTime call emit].
  unfold toNumber. destruct (Z.abs e <? 2 ^ 53); [|reflexivity].
  destruct (remainingAt e now <=? 0);
    match goal with
    | |- context [scan ch ?s0] =>
        destruct (scan_frame ch s0) as [k [l ->]]
    end;
    unfold fetchLatest; cbn [call emit session cache auction page submitBid
      submitName countdowns drains log withPage withCountdowns withAuction];
    cases; reflexivity.
Qed.

Lemma initializeAuctionData_countdowns_le ch now s :
  (countdowns s <= countdowns (initializeAuctionData ch now s))%nat.
Proof.
  rewrite initializeAuctionData_countdowns.
  destruct (ch_endTime ch) as [e|]; [destruct (Z.abs e <? 2 ^ 53)|]; lia.
Qed.

Lemma invoke_countdowns CONFIG ch h ev s :
  countdowns (invoke CONFIG ch h ev s) = countdowns s.
Proof.
  destruct h, ev as [bidder a text bidIndex hash | id hash]; simpl;
    try reflexivity.
  - unfold handleNewBid. cases; reflexivity.
  - unfold handleDataUpdated, processDataQueue, fetchBatch. cases; reflexivity.
Qed.

Lemma step_countdowns CONFIG w e s :
  (countdowns s <= countdowns (step CONFIG w e s))%nat.
Proof.
  destruct e; simpl.
  - unfold load, initializeApp, startPeriodicUpdates.
    eapply Nat.le_trans; [|apply initializeAuctionData_countdowns_le].
    eapply Nat.le_trans; apply initializeAuctionData_countdowns_le.
  - unfold periodicTick. destruct (_ >? _);
      [apply initializeAuctionData_countdowns_le | lia].
  - unfold countdownTick, updateTimer. cases; simpl; lia.
  - apply (deliver_keeps (fun s' => (countdowns s <= countdowns s')%nat));
      [|lia].
    intros h s0 H. rewrite invoke_countdowns. exact H.
  - simpl. lia.
  - unfold clickWallet, disconnectWallet, connectWallet, checkAndSwitchNetwork,
      updateWalletDisplay.
    cases; simpl; lia.
  - unfold handleAccountsChanged, disconnectWallet, connectWallet,
      checkAndSwitchNetwork, updateWalletDisplay.
    cases; simpl; lia.
  - unfold contribute, openBidModal, connectWallet, checkAndSwitchNetwork,
      updateWalletDisplay.
    cases; simpl; lia.
  - unfold onSubmitBid, afterWrite. cases; simpl; lia.
  - unfold handleRegister. cases; simpl; lia.
  - unfold onSubmitName, updateWalletDisplay. cases; simpl; lia.
  - unfold batchResolved, fetchBatch. cases; simpl; lia.
  - unfold batchRejected, processDataQueue, fetchBatch. cases; simpl; lia.
  - unfold pauseElapsed, fetchBatch. cases; simpl; lia.
Qed.

(** X8.  No step ever stops a countdown timer, and every run of
    [initializeAuctionData] that reads a usable deadline starts one
    more: a page load starts three, and each periodic tick that
    re-initializes adds another. *)
Theorem countdown_timers_accumulate CONFIG w e s d :
  ch_endTime (chain w) = Some d -> Z.abs d < 2 ^ 53 ->
  (countdowns s <= countdowns (step CONFIG w e s))%nat
  /\ countdowns (initializeAuctionData (chain w) (now w) s) = S (countdowns s)
  /\ countdowns (step CONFIG w PageLoad s) = (3 + countdowns s)%nat
  /\ (now w - lastUpdate (cache s) > CACHE_DURATION CONFIG ->
      countdowns (step CONFIG w PeriodicTick s) = S (countdowns s)).
Proof.
  intros Hd Hs. assert (E : (Z.abs d <? 2 ^ 53) = true) by (apply Z.ltb_lt, Hs).
  split; [apply step_countdowns|]. split; [|split].
  - rewrite initializeAuctionData_countdowns, Hd, E. reflexivity.
  - simpl. unfold load, initializeApp, startPeriodicUpdates.
    rewrite !initializeAuctionData_countdowns, Hd, E. reflexivity.
  - intros Hg. simpl. unfold periodicTick.
    destruct (Z.gtb_spec (now w - lastUpdate (cache s)) (CACHE_DURATION CONFIG));
      [|lia].
    rewrite initializeAuctionData_countdowns, Hd, E. reflexivity.
Qed.

Lemma countdown_timers_accumulate_witness :
  countdowns (run Scenario.config Reinit.events initialApp) = 5%nat
  /\ (countdowns Deadline.before
      <= countdowns (step Scenario.config Reinit.w PeriodicTick Deadline.before))%nat.
Proof.
  split; [reflexivity|].
  apply (countdown_timers_accumulate Scenario.config Reinit.w PeriodicTick
           Deadline.before 2000000000).
  - reflexivity.
  - vm_compute. reflexivity.
Defined.

(** X9.  One tick of the countdown, when it does not throw, at a time
    [Date.now()] that is not negative and below 2^53 (every time a
    browser reports): there the doubles of [updateTimer] are the exact
    integers of [remainingAt].  At or past the deadline the tick shows
    the end and disables the contribute button.  Before it, it shows
    hours, minutes and seconds that add up to the seconds left, minutes
    and seconds below 60, and leaves the button as it was: a disabled
    button is not enabled again. *)
Theorem tick_shows_time_left now e s s' :
  0 <= now < 2 ^ 53 ->
  endTimeValue (auction s) = Some e ->
  updateTimer now s = Some s' ->
  (remainingAt e now <= 0
   /\ auctionTimer (page s') = Some AuctionEnded
   /\ contributeDisabled (page s') = true)
  \/ (0 < remainingAt e now < 2 ^ 53
      /\ contributeDisabled (page s') = contributeDisabled (page s)
      /\ exists h m sec,
           auctionTimer (page s') = Some (Clock h m sec)
           /\ 0 <= h /\ 0 <= m < 60 /\ 0 <= sec < 60
           /\ 3600 * h + 60 * m + sec = remainingAt e now).
Proof.
  intros Hn He Hu. unfold updateTimer in Hu. rewrite He in Hu.
  destruct (toNumber e) as [n|] eqn:En; [|discriminate].
  assert (Hb : Z.abs e < 2 ^ 53).
  { unfold toNumber in En. destruct (Z.ltb_spec (Z.abs e) (2 ^ 53));
      [assumption | discriminate]. }
  apply toNumber_some in En. subst n.
  destruct (Z.leb_spec (remainingAt e now) 0) as [Hr | Hr];
    injection Hu as <-.
  - left. repeat split. exact Hr.
  - right. split.
    { split; [exact Hr|]. unfold remainingAt.
      assert (0 <= now / 1000) by (apply Z.div_pos; lia). lia. }
    split; [reflexivity|].
    eexists _, _, _. split; [reflexivity|].
    generalize dependent (remainingAt e now). intros r Hr.
    Z.div_mod_to_equations. lia.
Qed.

Lemma tick_shows_time_left_witness :
  exists h m sec,
    auctionTimer (page (withPage (setTimer (Clock 83333 20 0) false)
                          (withAuction (setEndTime 2000000000) initialApp)))
    = Some (Clock h m sec)
    /\ 3600 * h + 60 * m + sec = remainingAt 2000000000 1700000000000.
Proof.
  destruct (tick_shows_time_left 1700000000000 2000000000
              (withAuction (setEndTime 2000000000) initialApp)
              (withPage (setTimer (Clock 83333 20 0) false)
                 (withAuction (setEndTime 2000000000) initialApp)))
    as [[A _] | [_ [_ [h [m [sec [A [_ [_ [_ B]]]]]]]]]].
  - vm_compute. split; [discriminate | reflexivity].
  - reflexivity.
  - vm_compute. reflexivity.
  - exfalso. vm_compute in A. apply A. reflexivity.
  - exists h, m, sec. split; assumption.
Defined.

(** ** Initialization, the other ways *)

(** X10.  When the deadline cannot be read, or is too large for [toNumber],
    [initializeAuctionData] stops after that one read: the bid history
    is not read, no listener is registered, no timer is started, and the
    bid shown and the page stay as they were. *)
Theorem unusable_deadline_stops_initialization ch now s :
  deadlineUnusable ch ->
  since s (initializeAuctionData ch now s)
  = [ChainCall (contract (session s)) CallEndTime]
  /\ session (initializeAuctionData ch now s) = session s
  /\ current (initializeAuctionData ch now s) = current s
  /\ page (initializeAuctionData ch now s) = page s
  /\ countdowns (initializeAuctionData ch now s) = countdowns s.
Proof.
  unfold deadlineUnusable, initializeAuctionData, startTimer, updateTimer.
  destruct (ch_endTime ch) as [e|]; intros H.
  - cbn [endTimeValue auction withAuction setEndTime call emit].
    unfold toNumber. destruct (Z.ltb_spec (Z.abs e) (2 ^ 53)); [lia|].
    repeat split. apply since_app. reflexivity.
  - repeat split. apply since_app. reflexivity.
Qed.

Lemma unusable_deadline_stops_initialization_witness :
  since initialApp
    (initializeAuctionData
       (mkChain None [] (fun _ => None) (fun _ => None)
          (fun _ => TxRejected []) (fun _ _ => TxRejected []) [])
       0 initialApp)
  = [ChainCall 0%nat CallEndTime].
Proof.
  apply (unusable_deadline_stops_initialization
           (mkChain None [] (fun _ => None) (fun _ => None)
              (fun _ => TxRejected []) (fun _ _ => TxRejected []) [])
           0 initialApp).
  exact I.
Defined.

(** X11.  On a history where neither index 0 nor index 1 can be read (no bid
    yet), with a usable deadline: [initializeAuctionData] probes index
    1, then reads index 0, and both fail; the bid shown and what
    [updateDisplay] writes stay as they were, and the listener of
    [NewBid] is registered all the same. *)
Theorem initialization_without_bids ch now e s :
  ch_endTime ch = Some e -> Z.abs e < 2 ^ 53 ->
  readBid ch 0 = None -> readBid ch 1 = None ->
  bidReads (since s (initializeAuctionData ch now s)) = [1; 0]%nat
  /\ current (initializeAuctionData ch now s) = current s
  /\ lastBidderName (auction (initializeAuctionData ch now s))
     = lastBidderName (auction s)
  /\ display (initializeAuctionData ch now s) = display s
  /\ listeners (session (initializeAuctionData ch now s))
       (contract (session s)) NewBid = [onNewBid].
Proof.
  intros He Hs H0 H1.
  unfold initializeAuctionData, startTimer, updateTimer.
  rewrite He. cbn [endTimeValue auction withAuction setEndTime call emit].
  rewrite (toNumber_safe e Hs).
  destruct (remainingAt e now <=? 0);
    unfold scan; cbn [probe]; change (0 + 1)%nat with 1%nat; rewrite H1;
    unfold fetchLatest; cbn [call emit]; rewrite H0;
    (split; [erewrite since_app by (cbn; rewrite <- ?app_assoc; reflexivity);
             reflexivity|]);
    repeat split; simpl; rewrite Nat.eqb_refl; reflexivity.
Qed.

Lemma initialization_without_bids_witness :
  bidReads (since initialApp
              (initializeAuctionData (Scenario.chainWith [] 0) 1700000000000
                 initialApp))
  = [1; 0]%nat
  /\ current (initializeAuctionData (Scenario.chainWith [] 0) 1700000000000
                initialApp)
     = current initialApp.
Proof.
  destruct (initialization_without_bids (Scenario.chainWith [] 0) 1700000000000
              2000000000 initialApp) as [A [B _]].
  - reflexivity.
  - vm_compute. reflexivity.
  - reflexivity.
  - reflexivity.
  - split; [exact A | exact B].
Defined.

(** ** A bid whose bidder's name cannot be read *)

(** X12.  When the name of the bidder cannot be read, the listener of
    [NewBid] has already stored the new bid, bidder and message, but
    the name kept is still the one of the bidder before, and the page
    is not redrawn: it goes on showing the old winner and the old
    minimum. *)
Theorem unread_name_leaves_page_stale ch bidder a text bidIndex s :
  ch_addressToName ch bidder = None ->
  current (handleNewBid ch bidder a text bidIndex s)
  = (Some a, Some bidder, Some text)
  /\ lastBidderName (auction (handleNewBid ch bidder a text bidIndex s))
     = lastBidderName (auction s)
  /\ page (handleNewBid ch bidder a text bidIndex s) = page s.
Proof.
  intros H. unfold handleNewBid. rewrite H. repeat split.
Qed.

Lemma unread_name_leaves_page_stale_witness :
  current (handleNewBid
             (mkChain None [] (fun _ => None) (fun _ => None)
                (fun _ => TxRejected []) (fun _ _ => TxRejected []) [])
             Scenario.bob 7 [] 3 Scenario.aliceAfterThree)
  = (Some 7, Some Scenario.bob, Some [])
  /\ minNextBid (page (handleNewBid
                         (mkChain None [] (fun _ => None) (fun _ => None)
                            (fun _ => TxRejected []) (fun _ _ => TxRejected []) [])
                         Scenario.bob 7 [] 3 Scenario.aliceAfterThree))
     = minNextBid (page Scenario.aliceAfterThree).
Proof.
  destruct (unread_name_leaves_page_stale
              (mkChain None [] (fun _ => None) (fun _ => None)
                 (fun _ => TxRejected []) (fun _ _ => TxRejected []) [])
              Scenario.bob 7 [] 3 Scenario.aliceAfterThree eq_refl)
    as [A [_ C]].
  split; [exact A | rewrite C; reflexivity].
Defined.

(** X13.  The [then] callback of the [NewBid] listener stores the name it
    received and redraws the page from the globals as they are when it
    runs: drawing again changes nothing, the minimum shown is the amount
    stored last plus the increment, and the winner shown is the bidder
    stored last, under the name this callback received.  When nothing
    ran between the listener and its callback that is the new bid, and
    the two parts make up [handleNewBid].  When a second bid was stored
    in between, the callback of the first shows the second bidder's
    address and amount under the first bidder's name. *)
Theorem name_callback_redraws_from_globals name s :
  auction (nameArrives name s) = setBidderName name (auction s)
  /\ updateDisplay (nameArrives name s) = nameArrives name s
  /\ minNextBid (page (nameArrives name s))
     = Some (nextMinBid (currentBid (auction s)))
  /\ currentWinner (page (nameArrives name s))
     = Some (match lastBidder (auction s), name with
             | Some (c :: t), _ :: _ => WinnerNamed name (c :: t)
             | Some (c :: t), [] => WinnerAddress (c :: t)
             | _, _ => NoBidsYet
             end)
  /\ (forall ch bidder amount content bidIndex,
        ch_addressToName ch bidder = Some name ->
        nameArrives name (newBidArrives bidder amount content s)
        = handleNewBid ch bidder amount content bidIndex s)
  /\ (forall first a1 m1 c t a2 m2,
        minNextBid (page (nameArrives name
                            (newBidArrives (c :: t) a2 m2
                               (newBidArrives first a1 m1 s))))
        = Some (a2 + minIncrement)
        /\ currentWinner (page (nameArrives name
                                  (newBidArrives (c :: t) a2 m2
                                     (newBidArrives first a1 m1 s))))
           = Some (match name with
                   | [] => WinnerAddress (c :: t)
                   | _ :: _ => WinnerNamed name (c :: t)
                   end)).
Proof.
  split; [reflexivity|]. split; [reflexivity|]. split; [reflexivity|].
  split.
  { unfold nameArrives, updateDisplay. cbn.
    destruct (lastBidder (auction s)) as [[|c t]|]; destruct name; reflexivity. }
  split.
  - intros ch bidder amount content bidIndex H.
    unfold handleNewBid, newBidArrives. rewrite H. reflexivity.
  - intros first a1 m1 c t a2 m2. destruct name; split; reflexivity.
Qed.

Lemma name_callback_redraws_from_globals_witness :
  currentWinner
    (page (nameArrives (Js.lit "Alice")
             (newBidArrives Scenario.bob 5000000000000000 (Js.lit "fifth")
                (newBidArrives Scenario.alice 4000000000000000 (Js.lit "fourth")
                   Scenario.aliceAfterThree))))
  = Some (WinnerNamed (Js.lit "Alice") Scenario.bob)
  /\ nameArrives []
       (newBidArrives Scenario.bob 7 [] initialApp)
     = handleNewBid (Scenario.chainWith [] 0) Scenario.bob 7 [] 3 initialApp.
Proof.
  split.
  - destruct (name_callback_redraws_from_globals (Js.lit "Alice")
                Scenario.aliceAfterThree) as [_ [_ [_ [_ [_ B]]]]].
    destruct (B Scenario.alice 4000000000000000 (Js.lit "fourth")
                48%N (tl Scenario.bob) 5000000000000000 (Js.lit "fifth"))
      as [_ C].
    exact C.
  - destruct (name_callback_redraws_from_globals [] initialApp)
      as [_ [_ [_ [_ [A _]]]]].
    apply (A (Scenario.chainWith [] 0) Scenario.bob 7 [] 3%nat).
    reflexivity.
Defined.

(** ** The queue, continued *)

Lemma hasTransaction_app h l1 l2 :
  hasTransaction h l1 = true -> hasTransaction h (l1 ++ l2) = true.
Proof.
  unfold hasTransaction. intros H. rewrite existsb_app.
  apply orb_true_iff. left. exact H.
Qed.

Lemma handleDataUpdated_keeps_seen CONFIG id h' h s :
  hasTransaction h (processedTransactions (cache s)) = true ->
  hasTransaction h (processedTransactions (cache (handleDataUpdated CONFIG id h' s)))
  = true.
Proof.
  intros H. unfold handleDataUpdated, processDataQueue, fetchBatch.
  cases; cbn; try exact H; apply hasTransaction_app, H.
Qed.

Lemma invoke_keeps_seen CONFIG ch hd ev h s :
  hasTransaction h (processedTransactions (cache s)) = true ->
  hasTransaction h (processedTransactions (cache (invoke CONFIG ch hd ev s))) = true.
Proof.
  intros H. destruct hd, ev as [bidder a text bidIndex hash | id hash]; simpl;
    try exact H.
  - destruct (handleNewBid_quiet ch bidder a text bidIndex s) as [-> _]. exact H.
  - apply handleDataUpdated_keeps_seen, H.
Qed.

Lemma step_keeps_seen CONFIG w e h s :
  hasTransaction h (processedTransactions (cache s)) = true ->
  hasTransaction h (processedTransactions (cache (step CONFIG w e s))) = true.
Proof.
  intros H. destruct (isClick e) eqn:Hk;
    [destruct (clicks_quiet CONFIG w e s Hk) as [-> _]; exact H|].
  destruct e; try discriminate; simpl.
  - unfold load, initializeApp, startPeriodicUpdates.
    repeat rewrite (proj1 (initializeAuctionData_frame _ _ _)). exact H.
  - unfold periodicTick. destruct (_ >? _);
      [rewrite (proj1 (initializeAuctionData_frame _ _ _))|]; exact H.
  - apply (deliver_keeps
             (fun s' => hasTransaction h (processedTransactions (cache s')) = true));
      [|exact H].
    intros hd s0. apply invoke_keeps_seen.
  - exact H.
  - unfold batchResolved, fetchBatch. cases; exact H.
  - unfold batchRejected, processDataQueue, fetchBatch. cases; exact H.
  - unfold pauseElapsed, fetchBatch. cases; exact H.
Qed.

Lemma run_keeps_seen CONFIG h l : forall s,
  hasTransaction h (processedTransactions (cache s)) = true ->
  hasTransaction h (processedTransactions (cache (run CONFIG l s))) = true.
Proof.
  induction l as [|[w e] l IH]; intros s H; [exact H|].
  rewrite run_cons. apply IH, step_keeps_seen, H.
Qed.

(** X14.  A [DataUpdated] event is acted upon at most once per transaction
    hash: after the listener has handled an event of hash [h], and
    whatever happens next, a later event of the same hash changes
    nothing, whichever identifier it carries. *)
Theorem data_updated_once_per_transaction CONFIG id id' h l s :
  handleDataUpdated CONFIG id' h (run CONFIG l (handleDataUpdated CONFIG id h s))
  = run CONFIG l (handleDataUpdated CONFIG id h s).
Proof.
  apply handleDataUpdated_seen, run_keeps_seen, handleDataUpdated_marks.
Qed.

(** X15.  An event whose identifier does not fit [toNumber] marks its
    transaction as processed and stops there: nothing is queued or
    fetched, and the same transaction delivered again, even with a
    usable identifier, is ignored. *)
Theorem oversized_identifier_is_lost CONFIG id h s :
  2 ^ 53 <= Z.abs id ->
  hasTransaction h (processedTransactions (cache s)) = false ->
  pendingUpdates (cache (handleDataUpdated CONFIG id h s)) = pendingUpdates (cache s)
  /\ drains (handleDataUpdated CONFIG id h s) = drains s
  /\ log (handleDataUpdated CONFIG id h s) = log s
  /\ processedTransactions (cache (handleDataUpdated CONFIG id h s))
     = processedTransactions (cache s) ++ [h]
  /\ forall id', handleDataUpdated CONFIG id' h (handleDataUpdated CONFIG id h s)
                 = handleDataUpdated CONFIG id h s.
Proof.
  intros Hid Hh.
  assert (E : toNumber id = None).
  { unfold toNumber. destruct (Z.ltb_spec (Z.abs id) (2 ^ 53)); [lia | reflexivity]. }
  split; [|split; [|split; [|split]]];
    try (unfold handleDataUpdated; rewrite Hh, E; reflexivity).
  intros id'. apply handleDataUpdated_seen, handleDataUpdated_marks.
Qed.

Lemma oversized_identifier_is_lost_witness :
  pendingUpdates (cache (handleDataUpdated Scenario.config (2 ^ 60) [1%N] initialApp))
  = pendingUpdates (cache initialApp)
  /\ log (handleDataUpdated Scenario.config (2 ^ 60) [1%N] initialApp)
     = log initialApp.
Proof.
  destruct (oversized_identifier_is_lost Scenario.config (2 ^ 60) [1%N] initialApp)
    as [A [_ [B _]]].
  - vm_compute. discriminate.
  - reflexivity.
  - split; [exact A | exact B].
Defined.

Lemma setAdd_NoDup x l : NoDup l -> NoDup (setAdd x l).
Proof.
  intros H. unfold setAdd. destruct (existsb (Z.eqb x) l) eqn:E; [exact H|].
  apply NoDup_rev in H. rewrite <- (rev_involutive (l ++ [x])), rev_app_distr.
  apply NoDup_rev. simpl. constructor; [|exact H].
  intros Hin. apply in_rev in Hin.
  assert (Ex : existsb (Z.eqb x) l = true)
    by (apply existsb_exists; exists x; split; [exact Hin | apply Z.eqb_refl]).
  congruence.
Qed.

Lemma tidyQueue_cache s s' : cache s' = cache s -> tidyQueue s -> tidyQueue s'.
Proof. unfold tidyQueue. intros ->. trivial. Qed.

Lemma processDataQueue_tidy CONFIG s :
  NoDup (pendingUpdates (cache s)) -> tidyQueue (processDataQueue CONFIG s).
Proof.
  intros H. unfold processDataQueue, fetchBatch.
  destruct (isProcessing (cache s)) eqn:E.
  - split; [exact H | congruence].
  - cbn [cache withCache setProcessing pendingUpdates].
    destruct (pendingUpdates (cache s)) as [|u us] eqn:Ep; unfold tidyQueue; cbn.
    + rewrite Ep. split; [constructor | reflexivity].
    + split; [constructor | reflexivity].
Qed.

Lemma handleDataUpdated_tidy CONFIG id h s :
  tidyQueue s -> tidyQueue (handleDataUpdated CONFIG id h s).
Proof.
  intros [Hn Hi]. unfold handleDataUpdated.
  destruct (hasTransaction h (processedTransactions (cache s)));
    [split; assumption|].
  destruct (toNumber id) as [n|]; [|split; assumption].
  apply processDataQueue_tidy. simpl. apply setAdd_NoDup, Hn.
Qed.

Lemma batchResolved_tidy CONFIG k s :
  tidyQueue s -> tidyQueue (batchResolved CONFIG k s).
Proof.
  intros [Hn Hi]. unfold batchResolved, fetchBatch.
  destruct (nth_error (drains s) k) as [[r [|]]|]; try (split; assumption).
  destruct r; [|split; assumption].
  destruct (pendingUpdates (cache s)) eqn:E; split; simpl;
    try rewrite E; try constructor; reflexivity.
Qed.

Lemma batchRejected_tidy CONFIG k s :
  tidyQueue s -> tidyQueue (batchRejected CONFIG k s).
Proof.
  intros [Hn Hi]. unfold batchRejected.
  destruct (nth_error (drains s) k) as [[r [|]]|]; try (split; assumption).
  cbn [cache withCache withDrains setProcessing pendingUpdates].
  destruct (pendingUpdates (cache s)) eqn:E.
  - split; simpl; rewrite E; [constructor | reflexivity].
  - apply processDataQueue_tidy. simpl. rewrite E. exact Hn.
Qed.

Lemma invoke_tidy CONFIG ch hd ev s :
  tidyQueue s -> tidyQueue (invoke CONFIG ch hd ev s).
Proof.
  intros H. destruct hd, ev as [bidder a text bidIndex hash | id hash]; simpl;
    try exact H.
  - apply (tidyQueue_cache s); [apply handleNewBid_quiet | exact H].
  - apply handleDataUpdated_tidy, H.
Qed.

Lemma step_tidy CONFIG w e s : tidyQueue s -> tidyQueue (step CONFIG w e s).
Proof.
  intros H. destruct (isClick e) eqn:Hk;
    [apply (tidyQueue_cache s); [apply clicks_quiet, Hk | exact H]|].
  destruct e; try discriminate; simpl.
  - unfold load, initializeApp, startPeriodicUpdates.
    apply (tidyQueue_cache s); [|exact H].
    repeat rewrite (proj1 (initializeAuctionData_frame _ _ _)). reflexivity.
  - unfold periodicTick. destruct (_ >? _); [|exact H].
    apply (tidyQueue_cache s); [apply initializeAuctionData_frame | exact H].
  - apply (deliver_keeps tidyQueue); [|exact H].
    intros hd s0. apply invoke_tidy.
  - exact H.
  - apply batchResolved_tidy, H.
  - apply batchRejected_tidy, H.
  - apply (tidyQueue_cache s); [|exact H].
    unfold pauseElapsed, fetchBatch. cases; reflexivity.
Qed.

(** X16.  In every state the client can reach, the queue of pending
    identifiers holds none of them twice, and it is empty whenever no
    run of [processDataQueue] is in progress: an identifier never waits
    without a run that will take it. *)
Theorem pending_queue_is_tidy CONFIG s :
  reachable CONFIG s ->
  NoDup (pendingUpdates (cache s))
  /\ (drains s = [] -> pendingUpdates (cache s) = []).
Proof.
  intros Hr.
  assert (H : tidyQueue s).
  { induction Hr as [|w e s _ IH]; [|apply step_tidy, IH].
    split; [constructor | reflexivity]. }
  destruct H as [Hn Hi]. split; [exact Hn|].
  intros Hd. apply Hi.
  destruct (reachable_single CONFIG s Hr) as [_ Hf].
  destruct (isProcessing (cache s)); [|reflexivity].
  exfalso. apply (proj1 Hf eq_refl), Hd.
Qed.

Lemma pending_queue_is_tidy_witness :
  NoDup (pendingUpdates (cache Burst.queued)).
Proof.
  destruct (pending_queue_is_tidy Scenario.config Burst.queued) as [A _].
  - unfold Burst.queued, Burst.draining.
    apply run_reachable, run_reachable, reachable_initial.
  - exact A.
Defined.

Lemma resume_idle CONFIG w n s :
  drains s = [] -> run CONFIG (resume w n) s = s.
Proof.
  intros Hd. induction n as [|n IH]; [reflexivity|].
  cbn [resume]. rewrite !run_cons. cbn [step].
  assert (E1 : batchResolved CONFIG 0 s = s)
    by (unfold batchResolved; rewrite Hd; reflexivity).
  rewrite E1.
  assert (E2 : pauseElapsed CONFIG 0 s = s)
    by (unfold pauseElapsed; rewrite Hd; reflexivity).
  rewrite E2. exact IH.
Qed.

(** X17.  When a batch rejects and nothing is queued, the run ends there:
    the identifiers of the snapshot that were not yet fetched are
    dropped, without a trace in the log, and the flag is cleared. *)
Theorem rejected_batch_drops_snapshot CONFIG r s :
  drains s = [{| rest := r; waiting := AwaitBatch |}] ->
  pendingUpdates (cache s) = [] ->
  drains (batchRejected CONFIG 0 s) = []
  /\ pendingUpdates (cache (batchRejected CONFIG 0 s)) = []
  /\ isProcessing (cache (batchRejected CONFIG 0 s)) = false
  /\ log (batchRejected CONFIG 0 s) = log s
  /\ forall w n, run CONFIG (resume w n) (batchRejected CONFIG 0 s)
                 = batchRejected CONFIG 0 s.
Proof.
  intros Hd Hp.
  assert (E : batchRejected CONFIG 0 s
              = withCache (setProcessing false) (withDrains (removeAt 0) s)).
  { unfold batchRejected. rewrite Hd. cbn. rewrite Hp. reflexivity. }
  assert (D : drains (batchRejected CONFIG 0 s) = [])
    by (rewrite E; cbn; rewrite Hd; reflexivity).
  split; [exact D|]. split; [rewrite E; cbn; exact Hp|].
  split; [rewrite E; reflexivity|]. split; [rewrite E; reflexivity|].
  intros w n. apply resume_idle, D.
Qed.

Lemma rejected_batch_drops_snapshot_witness :
  drains (batchRejected Scenario.config 0 Burst.draining) = []
  /\ log (batchRejected Scenario.config 0 Burst.draining) = log Burst.draining.
Proof.
  destruct (rejected_batch_drops_snapshot Scenario.config [] Burst.draining)
    as [A [_ [_ [B _]]]].
  - reflexivity.
  - reflexivity.
  - split; [exact A | exact B].
Defined.

(** X18.  With [BATCH_SIZE] 0 a pass never advances: every round pauses and
    fetches an empty batch, and what is left of the snapshot stays
    what it was. *)
Theorem zero_batch_size_never_fetches CONFIG w u r s n :
  BATCH_SIZE CONFIG = 0%nat ->
  drains s = [{| rest := u :: r; waiting := AwaitBatch |}] ->
  drains (run CONFIG (resume w n) s) = drains s
  /\ log (run CONFIG (resume w n) s) = log s ++ emptyRounds n.
Proof.
  intros HB. revert s. induction n as [|n IH]; intros s Hd.
  - simpl. rewrite app_nil_r. split; reflexivity.
  - cbn [resume]. rewrite !run_cons. cbn [step].
    assert (E : pauseElapsed CONFIG 0 (batchResolved CONFIG 0 s)
                = mkApp (session s) (cache s) (auction s) (page s) (submitBid s)
                    (submitName s) (countdowns s)
                    [{| rest := u :: r; waiting := AwaitBatch |}]
                    (log s ++ [Delay 100; FetchBatch []])).
    { unfold batchResolved, pauseElapsed, fetchBatch. rewrite Hd, HB.
      cbn. rewrite Hd. cbn. unfold withDrains, emit.
      cbn [session cache auction page submitBid submitName countdowns drains log].
      rewrite Hd, <- app_assoc. reflexivity. }
    rewrite E.
    match goal with
    | |- context [run CONFIG _ ?s1] => destruct (IH s1 eq_refl) as [A B]
    end.
    rewrite A, B. cbn. rewrite Hd, <- app_assoc. split; reflexivity.
Qed.

Lemma zero_batch_size_never_fetches_witness :
  log (run (mkConfig [] 0 0 0) (resume Burst.w 2)
         (withDrains (fun _ => [{| rest := [5]; waiting := AwaitBatch |}]) initialApp))
  = log (withDrains (fun _ => [{| rest := [5]; waiting := AwaitBatch |}]) initialApp)
    ++ emptyRounds 2.
Proof.
  destruct (zero_batch_size_never_fetches (mkConfig [] 0 0 0) Burst.w 5 []
              (withDrains (fun _ => [{| rest := [5]; waiting := AwaitBatch |}])
                 initialApp) 2 eq_refl eq_refl) as [_ A].
  exact A.
Defined.

(** ** Status texts *)

Lemma startsWith_app p : forall s t,
  startsWith p s = true -> startsWith p (s ++ t) = true.
Proof.
  induction p as [|c p IH]; intros [|d s] t H; simpl in *;
    try reflexivity; try discriminate.
  apply andb_true_iff in H. destruct H as [H1 H2].
  rewrite H1. simpl. apply IH, H2.
Qed.

Lemma includes_unfold s p :
  includes s p
  = startsWith p s || match s with [] => false | _ :: s' => includes s' p end.
Proof. destruct s; reflexivity. Qed.

Lemma includes_app_l p : forall s t,
  includes s p = true -> includes (s ++ t) p = true.
Proof.
  induction s as [|c s IH]; intros t H; rewrite includes_unfold in H;
    rewrite includes_unfold.
  - rewrite orb_false_r in H. apply orb_true_iff. left.
    apply (startsWith_app p [] t H).
  - apply orb_true_iff in H. apply orb_true_iff. destruct H as [H | H].
    + left. apply (startsWith_app p (c :: s) t H).
    + right. simpl. apply IH, H.
Qed.

Lemma includes_app_r p : forall s t,
  includes t p = true -> includes (s ++ t) p = true.
Proof.
  induction s as [|c s IH]; intros t H; [exact H|].
  rewrite includes_unfold. apply orb_true_iff. right. simpl. apply IH, H.
Qed.

(** A pattern absent from a text is absent from every part of it. *)
Lemma includes_part p a b c :
  includes (a ++ b ++ c) p = false -> includes b p = false.
Proof.
  intros H. destruct (includes b p) eqn:E; [|reflexivity].
  rewrite (includes_app_r p a (b ++ c) (includes_app_l p b c E)) in H.
  discriminate.
Qed.

Lemma trimStart_part s : exists a, s = a ++ Js.trimStart s.
Proof.
  induction s as [|c s [a IH]]; [exists []; reflexivity|].
  simpl. destruct (Js.isWhiteSpace c).
  - exists (c :: a). simpl. rewrite <- IH. reflexivity.
  - exists []. reflexivity.
Qed.

Lemma trim_part s : exists a c, s = a ++ Js.trim s ++ c.
Proof.
  destruct (trimStart_part s) as [a Ha].
  destruct (trimStart_part (rev (Js.trimStart s))) as [c Hc].
  exists a, (rev c). unfold Js.trim, Js.trimEnd.
  rewrite <- rev_app_distr, <- Hc, rev_involutive. exact Ha.
Qed.

Lemma leadingClause_part s : exists r, s = leadingClause s ++ r.
Proof.
  induction s as [|c s [r IH]]; [exists []; reflexivity|].
  simpl. destruct (isOpening c).
  - exists (c :: s). reflexivity.
  - exists r. simpl. rewrite <- IH. reflexivity.
Qed.

Lemma leadingClause_free s : freeOfOpenings (leadingClause s) = true.
Proof.
  induction s as [|c s IH]; [reflexivity|].
  simpl. destruct (isOpening c) eqn:E; [reflexivity|].
  unfold freeOfOpenings. simpl. rewrite E. exact IH.
Qed.

Lemma leadingClause_fixed s : freeOfOpenings s = true -> leadingClause s = s.
Proof.
  unfold freeOfOpenings. induction s as [|c s IH]; [reflexivity|].
  simpl. intros H. apply andb_true_iff in H. destruct H as [H1 H2].
  destruct (isOpening c); [discriminate|]. rewrite (IH H2). reflexivity.
Qed.

Lemma freeOfOpenings_part a b c :
  freeOfOpenings (a ++ b ++ c) = true -> freeOfOpenings b = true.
Proof.
  unfold freeOfOpenings. rewrite !forallb_app. intros H.
  apply andb_true_iff in H. destruct H as [_ H].
  apply andb_true_iff in H. apply H.
Qed.

(** For a message without a known pattern that begins a clause: what
    is displayed. *)
Lemma displayMessage_clause m c l :
  unknownError m -> leadingClause m = c :: l ->
  displayMessage m = Js.trim (c :: l).
Proof.
  intros [H1 [H2 H3]] E. unfold displayMessage. rewrite H1, H2, H3, E.
  reflexivity.
Qed.

Lemma unknownError_part m a b c :
  unknownError m -> m = a ++ b ++ c -> unknownError b.
Proof.
  intros [H1 [H2 H3]] ->. repeat split; eapply includes_part; eassumption.
Qed.

(** X19.  The text that [showStatus] displays is a fixed point of its own
    rewriting: displaying what was displayed shows the same text. *)
Theorem displayed_text_is_stable m :
  displayMessage (displayMessage m) = displayMessage m.
Proof.
  destruct (includes m (Js.lit "user rejected")) eqn:H1.
  { assert (E : displayMessage m = Js.lit "User rejected transaction")
      by (unfold displayMessage; rewrite H1; reflexivity).
    rewrite E. reflexivity. }
  destruct (includes m (Js.lit "insufficient funds")) eqn:H2.
  { assert (E : displayMessage m = Js.lit "Insufficient funds")
      by (unfold displayMessage; rewrite H1, H2; reflexivity).
    rewrite E. reflexivity. }
  destruct (includes m (Js.lit "ACTION_REJECTED")) eqn:H3.
  { assert (E : displayMessage m = Js.lit "Transaction cancelled")
      by (unfold displayMessage; rewrite H1, H2, H3; reflexivity).
    rewrite E. reflexivity. }
  assert (Hu : unknownError m) by (repeat split; assumption).
  destruct (leadingClause m) as [|c l] eqn:El.
  - assert (E : displayMessage m = m)
      by (unfold displayMessage; rewrite H1, H2, H3, El; reflexivity).
    rewrite !E. reflexivity.
  - rewrite (displayMessage_clause m c l Hu El).
    destruct (leadingClause_part m) as [r Hr].
    destruct (trim_part (c :: l)) as [a [b Hab]].
    assert (Hfree : freeOfOpenings (Js.trim (c :: l)) = true).
    { apply (freeOfOpenings_part a _ b). rewrite <- Hab, <- El.
      apply leadingClause_free. }
    assert (Hu' : unknownError (Js.trim (c :: l))).
    { apply (unknownError_part m a (Js.trim (c :: l)) (b ++ r) Hu).
      rewrite Hr at 1. rewrite El, Hab at 1. rewrite <- !app_assoc. reflexivity. }
    destruct (Js.trim (c :: l)) as [|d t] eqn:Et.
    + destruct Hu' as [U1 [U2 U3]]. unfold displayMessage.
      rewrite U1, U2, U3. reflexivity.
    + rewrite (displayMessage_clause (d :: t) d t Hu'
                 (leadingClause_fixed _ Hfree)).
      rewrite <- Et. apply trim_twice.
Qed.

(** X20.  A message without a known pattern is cut before its first "(" or
    "{" and trimmed; what is displayed is a part of the message and
    holds neither character.  A message that begins with one of them
    (or is empty) is displayed whole. *)
Theorem unknown_error_is_cut m :
  unknownError m ->
  match m with
  | [] => displayMessage m = []
  | c :: _ =>
      if isOpening c then displayMessage m = m
      else displayMessage m = Js.trim (leadingClause m)
           /\ freeOfOpenings (displayMessage m) = true
           /\ exists a r, m = a ++ displayMessage m ++ r
  end.
Proof.
  intros Hu. pose proof Hu as [H1 [H2 H3]]. destruct m as [|c m].
  - reflexivity.
  - destruct (isOpening c) eqn:Ec.
    + unfold displayMessage. rewrite H1, H2, H3. simpl. rewrite Ec. reflexivity.
    + assert (El : leadingClause (c :: m) = c :: leadingClause m)
        by (simpl; rewrite Ec; reflexivity).
      rewrite (displayMessage_clause _ _ _ Hu El), El.
      destruct (trim_part (c :: leadingClause m)) as [a [b Hab]].
      destruct (leadingClause_part (c :: m)) as [r Hr].
      split; [reflexivity|]. split.
      * apply (freeOfOpenings_part a _ b). rewrite <- Hab, <- El.
        apply leadingClause_free.
      * exists a, (b ++ r). rewrite Hr at 1. rewrite El, Hab at 1.
        rewrite <- !app_assoc. reflexivity.
Qed.

Lemma unknown_error_is_cut_witness :
  displayMessage gasError = Js.trim (leadingClause gasError)
  /\ displayMessage gasError = Js.lit "cannot estimate gas; transaction may fail".
Proof.
  pose proof (unknown_error_is_cut gasError) as H.
  assert (Hu : unknownError gasError) by (repeat split; reflexivity).
  specialize (H Hu). simpl in H. destruct H as [A _].
  split; [exact A | reflexivity].
Defined.

(** ** Addresses in short *)

Lemma slice_head a n :
  0 <= n -> slice a 0 (Some n) = firstn (Z.to_nat n) a.
Proof.
  intros Hn. unfold slice, Js.length. cbn [Z.ltb Z.compare].
  destruct (Z.ltb_spec n 0); [lia|].
  replace (Z.min 0 (Z.of_nat (List.length a))) with 0 by lia.
  cbn [Z.to_nat skipn]. rewrite Z.sub_0_r.
  destruct (Z.le_gt_cases n (Z.of_nat (List.length a))) as [H1 | H1].
  - replace (Z.max (Z.min n (Z.of_nat (List.length a))) 0) with n by lia.
    reflexivity.
  - replace (Z.max (Z.min n (Z.of_nat (List.length a))) 0)
      with (Z.of_nat (List.length a)) by lia.
    rewrite Nat2Z.id, firstn_all. symmetry. apply firstn_all2. lia.
Qed.

Lemma slice_tail a n :
  0 < n ->
  slice a (- n) None = skipn (List.length a - Z.to_nat n) a.
Proof.
  intros Hn. unfold slice, Js.length.
  destruct (Z.ltb_spec (- n) 0); [|lia].
  set (len := Z.of_nat (List.length a)).
  assert (E : Z.to_nat (Z.max (len + - n) 0) = (List.length a - Z.to_nat n)%nat)
    by (subst len; lia).
  rewrite E. apply firstn_all2. rewrite length_skipn. subst len. lia.
Qed.

(** X21.  The short form of an address, as shown for the wallet and for the
    winner: the first six units, three dots, the last four; 13 units
    for any address of six units or more.  An address of four units
    or fewer is shown whole on both sides of the dots. *)
Theorem abbreviate_shape a :
  abbreviate a
  = firstn 6 a ++ Js.lit "..." ++ skipn (List.length a - 4) a
  /\ (6 <= Js.length a -> Js.length (abbreviate a) = 13)
  /\ (Js.length a <= 4 -> abbreviate a = a ++ Js.lit "..." ++ a).
Proof.
  assert (E : abbreviate a
              = firstn 6 a ++ Js.lit "..." ++ skipn (List.length a - 4) a).
  { unfold abbreviate. rewrite (slice_head a 6) by lia.
    pose proof (slice_tail a 4) as T. cbn [Z.opp] in T.
    rewrite T by lia. reflexivity. }
  split; [exact E|]. split.
  - unfold Js.length. intros H. rewrite E, !length_app, length_firstn, length_skipn.
    change (List.length (Js.lit "...")) with 3%nat. lia.
  - unfold Js.length. intros H. rewrite E.
    rewrite firstn_all2 by lia.
    replace (List.length a - 4)%nat with 0%nat by lia. reflexivity.
Qed.

Lemma abbreviate_shape_witness :
  Js.length (abbreviate (Js.lit "0x52908400098527886E0F7030069857D2E4169EE7")) = 13
  /\ abbreviate (Js.lit "0x52908400098527886E0F7030069857D2E4169EE7")
     = Js.lit "0x5290...9EE7".
Proof.
  destruct (abbreviate_shape (Js.lit "0x52908400098527886E0F7030069857D2E4169EE7"))
    as [_ [A _]].
  split; [apply A; vm_compute; discriminate | reflexivity].
Defined.

(** ** The wallet panel *)



(** ** The preview in the bid modal *)

(** X23.  The amount the preview line announces for the text in the input is
    the value that a click on submit attaches for the same text.  For
    an empty input the two differ: the preview reads it as 0 and
    announces minus the previous bids, while submit throws on parsing
    and sends nothing. *)
Theorem preview_matches_submit ch s P t message :
  submitBid s = Some P ->
  Js.length message <= 256 ->
  0 < P ->
  match t with
  | Amount wei =>
      updatePreviousBidsInfo P t = Some (Some (wei - P))
      /\ chainWrites (since s (onSubmitBid ch (parseAmount t) message s))
         = [ChainCall (contract (session s)) (CallContribute message (wei - P))]
  | EmptyAmount =>
      updatePreviousBidsInfo P t = Some (Some (- P))
      /\ onSubmitBid ch (parseAmount t) message s = s
  | NotAnAmount =>
      updatePreviousBidsInfo P t = None
      /\ onSubmitBid ch (parseAmount t) message s = s
  end.
Proof.
  intros HP Hm H0.
  assert (E : (P >? 0) = true) by (apply Z.gtb_lt; lia).
  destruct t as [|wei|]; unfold updatePreviousBidsInfo; simpl; rewrite ?E.
  - split; [reflexivity|]. unfold onSubmitBid. rewrite HP. reflexivity.
  - split; [reflexivity|].
    destruct (onSubmitBid_sends ch s P wei message HP Hm) as [l [-> Hl]].
    simpl. rewrite Hl. reflexivity.
  - split; [reflexivity|]. unfold onSubmitBid. rewrite HP. reflexivity.
Qed.

Lemma preview_matches_submit_witness :
  updatePreviousBidsInfo 3000000000000000 (Amount 5000000000000000)
  = Some (Some (5000000000000000 - 3000000000000000))
  /\ chainWrites (since Scenario.aliceAtModal
                    (onSubmitBid (Scenario.chainWith [] 3000000000000000)
                       (parseAmount (Amount 5000000000000000)) []
                       Scenario.aliceAtModal))
     = [ChainCall (contract (session Scenario.aliceAtModal))
          (CallContribute [] (5000000000000000 - 3000000000000000))].
Proof.
  apply (preview_matches_submit (Scenario.chainWith [] 3000000000000000)
           Scenario.aliceAtModal 3000000000000000 (Amount 5000000000000000) []).
  - reflexivity.
  - vm_compute. discriminate.
  - reflexivity.
Defined.

(** ** Reading items in batches *)

Lemma fetchLoop_indices Data Failure (getData : Z -> Data + Failure) MAX_ITEMS
    startIndex batchSize : forall fuel i,
  0 <= i -> batchSize - i <= Z.of_nat fuel ->
  map (@itemIndex Data Failure)
      (fetchLoop Data Failure getData MAX_ITEMS fuel startIndex batchSize i)
  = map (fun k => startIndex + i + Z.of_nat k)
        (seq 0 (Z.to_nat (Z.min batchSize (MAX_ITEMS - startIndex) - i))).
Proof.
  induction fuel as [|fuel IH]; intros i Hi Hf.
  - replace (Z.to_nat (Z.min batchSize (MAX_ITEMS - startIndex) - i)) with 0%nat
      by lia.
    reflexivity.
  - cbn [fetchLoop].
    destruct (Z.ltb_spec i batchSize) as [H1 | H1];
      [destruct (Z.ltb_spec (startIndex + i) MAX_ITEMS) as [H2 | H2]|]; cbn [andb].
    + replace (Z.to_nat (Z.min batchSize (MAX_ITEMS - startIndex) - i))
        with (S (Z.to_nat (Z.min batchSize (MAX_ITEMS - startIndex) - (i + 1))))
        by lia.
      cbn [seq map]. rewrite (IH (i + 1)) by lia. f_equal.
      * unfold fetchItem. destruct (getData (startIndex + i)); simpl; lia.
      * rewrite <- seq_shift, map_map. apply map_ext. intros k. lia.
    + replace (Z.to_nat (Z.min batchSize (MAX_ITEMS - startIndex) - i)) with 0%nat
        by lia.
      reflexivity.
    + replace (Z.to_nat (Z.min batchSize (MAX_ITEMS - startIndex) - i)) with 0%nat
        by lia.
      reflexivity.
Qed.

Lemma fetchLoop_items Data Failure (getData : Z -> Data + Failure) MAX_ITEMS
    startIndex batchSize : forall fuel i,
  Forall (fun x => itemIndex _ _ x < MAX_ITEMS
                   /\ match getData (itemIndex _ _ x) with
                      | inl d => itemData _ _ x = Some d
                                 /\ itemError _ _ x = None
                      | inr e => itemData _ _ x = None
                                 /\ itemError _ _ x = Some e
                      end)
    (fetchLoop Data Failure getData MAX_ITEMS fuel startIndex batchSize i).
Proof.
  induction fuel as [|fuel IH]; intros i; cbn [fetchLoop]; [constructor|].
  destruct (Z.ltb_spec i batchSize) as [H1 | H1];
    [destruct (Z.ltb_spec (startIndex + i) MAX_ITEMS) as [H2 | H2]|]; cbn [andb];
    try constructor; [|apply IH].
  unfold fetchItem. destruct (getData (startIndex + i)) eqn:E; simpl;
    rewrite E; repeat split; exact H2.
Qed.

(** X24.  [fetchDataBatch(startIndex, batchSize)] answers one item for each
    of the indices [startIndex], [startIndex + 1], ... that are below
    both [startIndex + batchSize] and [MAX_ITEMS]: none when the batch
    size is not positive or the start is at or past [MAX_ITEMS].  A
    failed read does not fail the batch: its item carries the error
    and no data, the others the data and no error. *)
Theorem fetchDataBatch_bounds Data Failure (getData : Z -> Data + Failure)
    MAX_ITEMS startIndex batchSize :
  map (@itemIndex Data Failure)
      (fetchDataBatch Data Failure getData MAX_ITEMS startIndex batchSize)
  = map (fun k => startIndex + Z.of_nat k)
        (seq 0 (Z.to_nat (Z.min batchSize (MAX_ITEMS - startIndex))))
  /\ Forall (fun x => itemIndex _ _ x < MAX_ITEMS
                      /\ match getData (itemIndex _ _ x) with
                         | inl d => itemData _ _ x = Some d
                                    /\ itemError _ _ x = None
                         | inr e => itemData _ _ x = None
                                    /\ itemError _ _ x = Some e
                         end)
       (fetchDataBatch Data Failure getData MAX_ITEMS startIndex batchSize).
Proof.
  split.
  - unfold fetchDataBatch.
    rewrite (fetchLoop_indices Data Failure getData MAX_ITEMS startIndex batchSize
               (Z.to_nat batchSize) 0) by lia.
    rewrite Z.sub_0_r. apply map_ext. intros k. lia.
  - apply fetchLoop_items.
Qed.

(** ** The scan on a broken history *)

(** X25.  The scan stops at the first index, from 1 on, that cannot be read,
    whatever lies beyond it: with the indices 1..j readable and j+1
    not, it ends with [latestIndex = j] after j+1 probes, and more
    rounds would change nothing.  A failed read in the middle of the
    history thus leaves the client on an older bid. *)
Theorem scan_stops_at_first_failure ch j s :
  (forall i, (1 <= i <= j)%nat -> readBid ch i <> None) ->
  readBid ch (j + 1) = None ->
  fst (scan ch s) = j
  /\ bidReads (since s (snd (scan ch s))) = seq 1 (j + 1)
  /\ forall extra,
       probe (S (List.length (ch_bidHistory ch)) + extra) ch 0 s = scan ch s.
Proof.
  intros Hex Hend.
  assert (Hj : (j <= List.length (ch_bidHistory ch))%nat).
  { destruct j as [|j]; [lia|].
    assert (S j < List.length (ch_bidHistory ch))%nat; [|lia].
    apply readBid_inside, Hex. lia. }
  assert (E : scan ch s
              = (j, mkApp (session s) (cache s) (auction s) (page s) (submitBid s)
                      (submitName s) (countdowns s) (drains s)
                      (log s ++ map (fun i => ChainCall (contract (session s))
                                                (CallBidHistory i))
                                    (seq 1 (j + 1))))).
  { unfold scan. rewrite (probe_run ch j); [reflexivity | lia | |exact Hend].
    intros i Hi. apply Hex. lia. }
  rewrite E. cbn [fst snd]. split; [reflexivity|]. split.
  - erewrite since_app by (cbn [log]; reflexivity). apply bidReads_probes.
  - intros extra. rewrite <- E. unfold scan. apply probe_breaks. lia.
Qed.

Lemma scan_stops_at_first_failure_witness :
  fst (scan (Scenario.chainWith brokenHistory 0) initialApp) = 1%nat
  /\ bidReads (since initialApp
                 (snd (scan (Scenario.chainWith brokenHistory 0) initialApp)))
     = seq 1 (1 + 1).
Proof.
  destruct (scan_stops_at_first_failure (Scenario.chainWith brokenHistory 0) 1
              initialApp) as [A [B _]].
  - intros i Hi. assert (i = 1%nat) as -> by lia. discriminate.
  - reflexivity.
  - split; [exact A | exact B].
Defined.

(** ** The two checks of the message length *)

(** X26.  The listener on the message field and the submit handler use the
    same bound.  When [parseEther] accepts the amount text, the submit
    button is left enabled exactly when a click on it goes through to
    the [contribute] call, and disabled exactly when the handler would
    answer "Message too long".  When [parseEther] rejects the amount
    text, the handler throws on its first statement and the click does
    nothing, whatever the length of the message: an enabled button does
    not lead to [contribute], and a long message gets no answer. *)
Theorem message_checks_agree ch s P bidAmount value :
  submitBid s = Some P ->
  match bidAmount with
  | Some T =>
      (onMessageInput value = false ->
       chainWrites (since s (onSubmitBid ch (Some T) value s))
       = [ChainCall (contract (session s)) (CallContribute value (T - P))])
      /\ (onMessageInput value = true ->
          since s (onSubmitBid ch (Some T) value s)
          = [ShowStatus (Js.lit "Message too long (max 256 characters)") error])
  | None => onSubmitBid ch None value s = s
  end.
Proof.
  intros HP. destruct bidAmount as [T|].
  - unfold onMessageInput.
    destruct (Z.gtb_spec (Js.length value) 256) as [H | H]; split;
      try discriminate; intros _.
    + unfold onSubmitBid. rewrite HP.
      destruct (Z.gtb_spec (Js.length value) 256); [|lia].
      apply since_app. reflexivity.
    + destruct (onSubmitBid_sends ch s P T value HP H) as [l [-> Hl]].
      simpl. rewrite Hl. reflexivity.
  - unfold onSubmitBid. rewrite HP. reflexivity.
Qed.

Lemma message_checks_agree_witness :
  chainWrites (since Scenario.aliceAfterThree
                 (onSubmitBid (Scenario.chainWith Scenario.threeBids 0)
                    (Some 3500000000000000) (Js.lit "mine")
                    Scenario.aliceAfterThree))
  = [ChainCall (contract (session Scenario.aliceAfterThree))
       (CallContribute (Js.lit "mine") (3500000000000000 - 0))]
  /\ onSubmitBid (Scenario.chainWith Scenario.threeBids 0) None
       (repeat 97%N 300) Scenario.aliceAfterThree
     = Scenario.aliceAfterThree.
Proof.
  split.
  - destruct (message_checks_agree (Scenario.chainWith Scenario.threeBids 0)
                Scenario.aliceAfterThree 0 (Some 3500000000000000)
                (Js.lit "mine") eq_refl) as [A _].
    apply A. reflexivity.
  - apply (message_checks_agree (Scenario.chainWith Scenario.threeBids 0)
             Scenario.aliceAfterThree 0 None (repeat 97%N 300) eq_refl).
Defined.
